(** * FileUploader: the upload / delete lifecycle of the text-split panel

    A shallow embedding of [src/components/text-split/FileUploader.js].

    The component is a React function component: nine pieces of local state,
    three props that matter to the logic ([projectId], [onUploadSuccess],
    [onFileDeleted]) and a handful of event handlers, three of which are
    [async] and talk to a REST backend through [fetch].

    Modelling choices, all visible in the definitions below:
    - strings are [string]: the bytes of the JavaScript string in UTF-8,
      a lone surrogate, which UTF-8 proper does not have, being written
      as the three bytes ED A0..BF 80..BF;
    - a handler is a closure created by one render: what it READS from the
      component state ([files], [uploadedFiles], [fileToDelete]) is the
      snapshot [snap] of that render, what it WRITES goes through the state
      setters to the live state of the [World];
    - [async] handlers run in a small state-and-exception monad [M]; an
      [await] is a bind; [try/catch/finally] are combinators;
    - the outside world (network, callbacks, console, page reload) is
      observed through a [trace] of events; the answers of the network are an
      arbitrary sequence [net], indexed by the number of requests made so far;
    - a handler is run to completion without another handler interleaving:
      the model says nothing of an action fired while a request of an
      earlier one is still in flight;
    - a callback prop returns or throws an error object, that is a value
      with a string [message]; a callback throwing a value without one
      ([null], [undefined]) is outside the model. *)

From Stdlib Require Import List String Ascii Bool Arith Lia DecimalString.
Import ListNotations.

Local Open Scope string_scope.
Local Open Scope list_scope.
Local Open Scope nat_scope.

Set Warnings "-register-all".

(** ** JavaScript values *)

Module Js.

(** A JSON-like value. A number is carried by its canonical rendering, that
    is by what [String(n)] gives for it; [-0] renders as ["0"], and [NaN]
    does not come out of JSON. *)
Inductive JsVal : Type :=
| JUndefined
| JNull
| JBool (b : bool)
| JNum (repr : string)
| JStr (s : string)
| JArr (items : list JsVal)
| JObj (fields : list (string * JsVal)).

(** ToBoolean. *)
Definition truthy (v : JsVal) : bool :=
  match v with
  | JUndefined | JNull => false
  | JBool b => b
  | JNum repr => negb (repr =? "0")%string
  | JStr s => negb (s =? EmptyString)%string
  | JArr _ | JObj _ => true
  end.

(** ToString; an array joins its items with a comma, [null] and [undefined]
    items render as the empty string; an object renders as the default
    [Object.prototype.toString] does (a JSON object that redefines
    [toString] is not modelled). *)
Fixpoint ToString (v : JsVal) : string :=
  match v with
  | JUndefined => "undefined"
  | JNull => "null"
  | JBool true => "true"
  | JBool false => "false"
  | JNum repr => repr
  | JStr s => s
  | JArr items =>
      String.concat ","
        (map (fun x => match x with
                       | JUndefined | JNull => EmptyString
                       | _ => ToString x
                       end) items)
  | JObj _ => "[object Object]"
  end.

(** [a || b] on values. *)
Definition or_else (a b : JsVal) : JsVal := if truthy a then a else b.

(** [s || t] on strings: the empty string is falsy. *)
Definition str_or_else (s t : string) : string :=
  if (s =? EmptyString)%string then t else s.

(** Truthiness of a [string | null], as in [if (!selectedModelId)]. *)
Definition truthy_str (o : option string) : bool :=
  match o with
  | None => false
  | Some s => negb (s =? EmptyString)%string
  end.

(** An exception object: a value with a string [message], which is all
    the code ever reads of what it catches. *)
Record JsError : Type := mkError { message : string }.

(** [new Error(v)]. *)
Definition Error (v : JsVal) : JsError := mkError (ToString v).

(** [String.prototype.endsWith]. *)
Definition endsWith (s suffix : string) : bool :=
  let n := String.length s in
  let m := String.length suffix in
  (m <=? n) && (substring (n - m) m s =? suffix)%string.

(** [Array.prototype.join] on strings. *)
Definition join (sep : string) (l : list string) : string := String.concat sep l.

(** Rendering of a non-negative integer in a template literal. *)
Definition nat_to_string (n : nat) : string := NilEmpty.string_of_uint (Nat.to_uint n).

(** [encodeURIComponent] on the UTF-8 bytes of a well-formed string: the
    unreserved characters [A-Z a-z 0-9 - _ . ! ~ * ' ( )] stand for
    themselves, every other byte becomes [%XX] in upper-case hexadecimal.
    On a string with a lone surrogate the builtin throws a URIError
    instead; [has_lone_surrogate] below recognises those strings, and what
    is stated of the encoding is stated of the others. *)
Definition is_unreserved (c : ascii) : bool :=
  let n := nat_of_ascii c in
  ((65 <=? n) && (n <=? 90)) || ((97 <=? n) && (n <=? 122)) || ((48 <=? n) && (n <=? 57))
  || (n =? 45) || (n =? 95) || (n =? 46) || (n =? 33) || (n =? 126)
  || (n =? 42) || (n =? 39) || (n =? 40) || (n =? 41).

Definition hex_digit (n : nat) : ascii :=
  if n <? 10 then ascii_of_nat (48 + n) else ascii_of_nat (55 + n).

Definition percent_encode (c : ascii) : string :=
  let n := nat_of_ascii c in
  String "%" (String (hex_digit (n / 16)) (String (hex_digit (n mod 16)) EmptyString)).

Fixpoint encodeURIComponent (s : string) : string :=
  match s with
  | EmptyString => EmptyString
  | String c rest =>
      if is_unreserved c
      then String c (encodeURIComponent rest)
      else (percent_encode c ++ encodeURIComponent rest)%string
  end.

(** A lone surrogate in the bytes of a string: the byte ED followed by a
    byte between A0 and BF. *)
Fixpoint has_lone_surrogate (s : string) : bool :=
  match s with
  | String c (String d _ as rest) =>
      ((nat_of_ascii c =? 237) && (160 <=? nat_of_ascii d) && (nat_of_ascii d <=? 191))
      || has_lone_surrogate rest
  | _ => false
  end.

End Js.
Import Js.

(** ** Data model *)

(** A locally selected file: the [File] object of the browser. *)
Record File : Type := mkFile { name : string; content : string }.

(** What the code can observe of a parsed JSON body: the three properties
    it reads. Following the REST interface, [files] is an array when it is
    present; [None] stands for an absent (or otherwise falsy) [files]. *)
Record Body : Type := mkBody {
  body_error : JsVal;
  body_files : option (list JsVal);
  body_fileName : JsVal
}.

(** The component state: the nine [useState] cells. *)
Record State : Type := mkState {
  files : list File;
  uploadedFiles : list JsVal;
  uploading : bool;
  loading : bool;
  error : option string;
  success : bool;
  successMessage : string;
  deleteConfirmOpen : bool;
  fileToDelete : option string
}.

(** [useState] initial values. *)
Definition initial_state : State :=
  mkState [] [] false false None false EmptyString false None.

(** ** The outside world *)

Inductive Method : Type := GET | POST | DELETE.

(** A request: [body] is the [file] field of the multipart form, if any. *)
Record Request : Type := mkRequest {
  method : Method;
  url : string;
  body : option File
}.

(** [await response.json()]: rejects, or resolves to [null] ([None]) or to a
    value seen through [Body]. *)
Inductive JsonResult : Type :=
| JsonRejected (e : JsError)
| JsonResolved (data : option Body).

Record Response : Type := mkResponse { ok : bool; json : JsonResult }.

(** [await fetch(...)]: rejects (network failure) or resolves. *)
Inductive FetchResult : Type :=
| FetchRejected (e : JsError)
| FetchResolved (r : Response).

(** How a call of a callback prop ends: it returns, or it throws an error
    object. *)
Inductive CallResult : Type :=
| CallReturns
| CallThrows (e : JsError).

(** Everything the component does that is visible outside of it. *)
Inductive Event : Type :=
| EvFetch (rq : Request)
| EvConsoleError (label : string) (e : JsError)
| EvUploadSuccess (fileNames : list JsVal) (modelInfo : JsVal)
| EvFileDeleted (fileName : string)
| EvReload.

(** Props and ambient browser objects, fixed during a run. [net n] is the
    answer to the request made when [n] requests were made before it;
    [nullRead p] is the engine's TypeError for reading property [p] of
    [null]; [JSON_parse] gives [None] where [JSON.parse] throws. *)
Record Env : Type := mkEnv {
  projectId : string;
  onUploadSuccess : option (list JsVal -> JsVal -> CallResult);
  onFileDeleted : option (string -> CallResult);
  localStorage : string -> option string;
  JSON_parse : string -> option JsVal;
  net : nat -> FetchResult;
  nullRead : string -> JsError
}.

Record World : Type := mkWorld {
  state : State;
  trace : list Event;
  clock : nat
}.

(** ** The monad of handlers *)

Inductive Completion (A : Type) : Type :=
| Normal (a : A)
| Throw (e : JsError).
Arguments Normal {A} a.
Arguments Throw {A} e.

Definition M (A : Type) : Type := World -> Completion A * World.

Definition ret {A} (a : A) : M A := fun w => (Normal a, w).

Definition bind {A B} (m : M A) (k : A -> M B) : M B :=
  fun w =>
    match m w with
    | (Normal a, w1) => k a w1
    | (Throw e, w1) => (Throw e, w1)
    end.

Definition throw {A} (e : JsError) : M A := fun w => (Throw e, w).

(** [try { body } catch (e) { handler e }]. *)
Definition try_catch {A} (body : M A) (handler : JsError -> M A) : M A :=
  fun w =>
    match body w with
    | (Normal a, w1) => (Normal a, w1)
    | (Throw e, w1) => handler e w1
    end.

(** [try { body } finally { final }]: [final] always runs; the completion is
    that of [body] unless [final] itself throws. *)
Definition try_finally {A} (body : M A) (final : M unit) : M A :=
  fun w =>
    match body w with
    | (c, w1) =>
        match final w1 with
        | (Normal _, w2) => (c, w2)
        | (Throw e, w2) => (Throw e, w2)
        end
    end.

Definition when (b : bool) (m : M unit) : M unit := if b then m else ret tt.

Declare Scope js_scope.
Delimit Scope js_scope with js.
Notation "x <- m ;; k" := (bind m (fun x => k))
  (at level 61, m at next level, right associativity) : js_scope.
Notation "m ;; k" := (bind m (fun _ => k))
  (at level 61, right associativity) : js_scope.
Local Open Scope js_scope.

(** ** State setters *)

Definition modify (f : State -> State) : M unit :=
  fun w => (Normal tt, mkWorld (f (state w)) (trace w) (clock w)).

Definition with_files (v : list File) (s : State) : State :=
  mkState v (uploadedFiles s) (uploading s) (loading s) (error s) (success s)
          (successMessage s) (deleteConfirmOpen s) (fileToDelete s).
Definition with_uploadedFiles (v : list JsVal) (s : State) : State :=
  mkState (files s) v (uploading s) (loading s) (error s) (success s)
          (successMessage s) (deleteConfirmOpen s) (fileToDelete s).
Definition with_uploading (v : bool) (s : State) : State :=
  mkState (files s) (uploadedFiles s) v (loading s) (error s) (success s)
          (successMessage s) (deleteConfirmOpen s) (fileToDelete s).
Definition with_loading (v : bool) (s : State) : State :=
  mkState (files s) (uploadedFiles s) (uploading s) v (error s) (success s)
          (successMessage s) (deleteConfirmOpen s) (fileToDelete s).
Definition with_error (v : option string) (s : State) : State :=
  mkState (files s) (uploadedFiles s) (uploading s) (loading s) v (success s)
          (successMessage s) (deleteConfirmOpen s) (fileToDelete s).
Definition with_success (v : bool) (s : State) : State :=
  mkState (files s) (uploadedFiles s) (uploading s) (loading s) (error s) v
          (successMessage s) (deleteConfirmOpen s) (fileToDelete s).
Definition with_successMessage (v : string) (s : State) : State :=
  mkState (files s) (uploadedFiles s) (uploading s) (loading s) (error s) (success s)
          v (deleteConfirmOpen s) (fileToDelete s).
Definition with_deleteConfirmOpen (v : bool) (s : State) : State :=
  mkState (files s) (uploadedFiles s) (uploading s) (loading s) (error s) (success s)
          (successMessage s) v (fileToDelete s).
Definition with_fileToDelete (v : option string) (s : State) : State :=
  mkState (files s) (uploadedFiles s) (uploading s) (loading s) (error s) (success s)
          (successMessage s) (deleteConfirmOpen s) v.

Definition setFiles (f : list File -> list File) : M unit :=
  modify (fun s => with_files (f (files s)) s).
Definition setUploadedFiles (v : list JsVal) : M unit := modify (with_uploadedFiles v).
Definition setUploading (v : bool) : M unit := modify (with_uploading v).
Definition setLoading (v : bool) : M unit := modify (with_loading v).
Definition setError (v : option string) : M unit := modify (with_error v).
Definition setSuccess (v : bool) : M unit := modify (with_success v).
Definition setSuccessMessage (v : string) : M unit := modify (with_successMessage v).
Definition setDeleteConfirmOpen (v : bool) : M unit := modify (with_deleteConfirmOpen v).
Definition setFileToDelete (v : option string) : M unit := modify (with_fileToDelete v).

(** ** Effects *)

Definition emit (ev : Event) : M unit :=
  fun w => (Normal tt, mkWorld (state w) (trace w ++ [ev]) (clock w)).

(** [await fetch(url, {method, body})]. *)
Definition fetch (env : Env) (rq : Request) : M Response :=
  fun w =>
    let w1 := mkWorld (state w) (trace w ++ [EvFetch rq]) (S (clock w)) in
    match net env (clock w) with
    | FetchRejected e => (Throw e, w1)
    | FetchResolved r => (Normal r, w1)
    end.

(** [await response.json()]. *)
Definition response_json (r : Response) : M (option Body) :=
  match json r with
  | JsonRejected e => throw e
  | JsonResolved data => ret data
  end.

(** [data.p]: reading a property of [null] throws. *)
Definition read {A} (env : Env) (p : string) (get : Body -> A) (data : option Body) : M A :=
  match data with
  | None => throw (nullRead env p)
  | Some b => ret (get b)
  end.

Definition console_error (label : string) (e : JsError) : M unit :=
  emit (EvConsoleError label e).

(** Calling a callback prop: the call is observed, then it returns or throws. *)
Definition call (ev : Event) (r : CallResult) : M unit :=
  emit ev ;;
  match r with
  | CallReturns => ret tt
  | CallThrows e => throw e
  end.

Definition location_reload : M unit := emit EvReload.

(** ** The component *)

(** [`/api/projects/${projectId}/files`]. *)
Definition files_url (env : Env) : string :=
  ("/api/projects/" ++ projectId env ++ "/files")%string.

(** [`/api/projects/${projectId}/files?fileName=${encodeURIComponent(fileToDelete)}`]. *)
Definition delete_url (env : Env) (target : string) : string :=
  ("/api/projects/" ++ projectId env ++ "/files?fileName=" ++ encodeURIComponent target)%string.

Definition list_request (env : Env) : Request := mkRequest GET (files_url env) None.
Definition upload_request (env : Env) (file : File) : Request :=
  mkRequest POST (files_url env) (Some file).
Definition delete_request (env : Env) (target : string) : Request :=
  mkRequest DELETE (delete_url env target) None.

(** [data.files || []]. *)
Definition files_or_empty (fs : option (list JsVal)) : list JsVal :=
  match fs with
  | Some l => l
  | None => []
  end.

Definition fetchUploadedFiles (env : Env) : M unit :=
  try_finally
    (try_catch
       (setLoading true ;;
        response <- fetch env (list_request env) ;;
        when (negb (ok response))
          (errorData <- response_json response ;;
           err <- read env "error" body_error errorData ;;
           throw (Error (or_else err (JStr "获取文件列表失败")))) ;;
        data <- response_json response ;;
        fs <- read env "files" body_files data ;;
        setUploadedFiles (files_or_empty fs))
       (fun error =>
          console_error "获取文件列表出错:" error ;;
          setError (Some (message error))))
    (setLoading false).

Definition single_file_limit : string :=
  "一个项目限制处理一个文件，如需上传新文件请先删除现有文件".

Definition unsupported_format (names : list string) : string :=
  ("不支持的文件格式: " ++ join ", " names ++ "。目前仅支持Markdown文件。")%string.

Definition is_md (file : File) : bool := endsWith (name file) ".md".

Definition handleFileSelect (snap : State) (selectedFiles : list File) : M unit :=
  if 0 <? List.length (uploadedFiles snap) then
    setError (Some single_file_limit)
  else
    let validFiles := filter is_md selectedFiles in
    let invalidFiles := filter (fun file => negb (is_md file)) selectedFiles in
    when (0 <? List.length invalidFiles)
      (setError (Some (unsupported_format (map name invalidFiles)))) ;;
    when (0 <? List.length validFiles)
      (setFiles (fun prev => prev ++ validFiles)).

(** [Array.prototype.filter] with the two-argument callback [(x, i) => ...]. *)
Fixpoint filter_from {A} (p : A -> nat -> bool) (i : nat) (l : list A) : list A :=
  match l with
  | [] => []
  | x :: rest =>
      if p x i then x :: filter_from p (S i) rest else filter_from p (S i) rest
  end.

Definition filter_indexed {A} (p : A -> nat -> bool) (l : list A) : list A :=
  filter_from p 0 l.

(** [index] is the position of the entry the user clicked. *)
Definition removeFile (index : nat) : M unit :=
  setFiles (fun prev => filter_indexed (fun _ i => negb (i =? index)) prev).

Definition no_model_selected : string := "未选择模型，请先在顶部导航栏选择一个模型".
Definition model_info_parse_error : string := "解析模型信息出错!".
Definition upload_failed : string := "上传文件失败".
Definition delete_failed : string := "删除文件失败".

Definition uploaded_count (n : nat) : string :=
  ("成功上传 " ++ nat_to_string n ++ " 个文件")%string.

Definition deleted_file (target : string) : string :=
  ("成功删除文件 " ++ target)%string.

(** The body of [for (const file of files)], with [uploadedFileNames] as
    accumulator. *)
Fixpoint upload_loop (env : Env) (fs : list File) (uploadedFileNames : list JsVal)
  : M (list JsVal) :=
  match fs with
  | [] => ret uploadedFileNames
  | file :: rest =>
      response <- fetch env (upload_request env file) ;;
      when (negb (ok response))
        (errorData <- response_json response ;;
         err <- read env "error" body_error errorData ;;
         throw (Error (or_else err (JStr upload_failed)))) ;;
      data <- response_json response ;;
      fileName <- read env "fileName" body_fileName data ;;
      upload_loop env rest (uploadedFileNames ++ [fileName])
  end.

(** The model lookup at the head of [handleStartUpload]'s [try] block. *)
Definition read_model_info (env : Env) : M JsVal :=
  let selectedModelId := localStorage env "selectedModelId" in
  when (negb (truthy_str selectedModelId))
    (throw (mkError no_model_selected)) ;;
  let modelInfoStr := localStorage env "selectedModelInfo" in
  match modelInfoStr with
  | Some str =>
      if truthy_str modelInfoStr then
        match JSON_parse env str with
        | Some v => ret v
        | None => throw (mkError model_info_parse_error)
        end
      else ret JNull
  | None => ret JNull
  end.

Definition handleStartUpload (env : Env) (snap : State) : M unit :=
  setUploading true ;;
  setError None ;;
  try_finally
    (try_catch
       (selectedModelInfo <- read_model_info env ;;
        uploadedFileNames <- upload_loop env (files snap) [] ;;
        setSuccessMessage (uploaded_count (List.length (files snap))) ;;
        setSuccess true ;;
        setFiles (fun _ => []) ;;
        fetchUploadedFiles env ;;
        match onUploadSuccess env with
        | Some cb =>
            call (EvUploadSuccess uploadedFileNames selectedModelInfo)
                 (cb uploadedFileNames selectedModelInfo)
        | None => ret tt
        end)
       (fun err => setError (Some (str_or_else (message err) upload_failed))))
    (setUploading false).

Definition uploadFiles (env : Env) (snap : State) : M unit :=
  if List.length (files snap) =? 0 then ret tt else handleStartUpload env snap.

Definition openDeleteConfirm (fileName : string) : M unit :=
  setFileToDelete (Some fileName) ;;
  setDeleteConfirmOpen true.

Definition closeDeleteConfirm : M unit :=
  setDeleteConfirmOpen false ;;
  setFileToDelete None.

(** [if (!fileToDelete) return;] leaves on [null] and on the empty string;
    past it, [fileToDelete] is the name captured by the closure. *)
Definition handleDeleteFile (env : Env) (snap : State) : M unit :=
  match fileToDelete snap with
  | None => ret tt
  | Some target =>
      if negb (truthy_str (Some target)) then ret tt
      else
        try_finally
          (try_catch
             (setLoading true ;;
              closeDeleteConfirm ;;
              response <- fetch env (delete_request env target) ;;
              when (negb (ok response))
                (errorData <- response_json response ;;
                 err <- read env "error" body_error errorData ;;
                 throw (Error (or_else err (JStr delete_failed)))) ;;
              fetchUploadedFiles env ;;
              match onFileDeleted env with
              | Some cb => call (EvFileDeleted target) (cb target)
              | None => ret tt
              end ;;
              setSuccessMessage (deleted_file target) ;;
              setSuccess true ;;
              location_reload)
             (fun error =>
                console_error "删除文件出错:" error ;;
                setError (Some (message error))))
          (setLoading false ;;
           setFileToDelete None)
  end.

Definition handleCloseError : M unit := setError None.

Definition handleCloseSuccess : M unit := setSuccess false.

(** ** Running the component *)

(** What the user (or React, for [Mount]) can trigger. *)
Inductive Action : Type :=
| Mount
| SelectFiles (candidates : list File)
| RemoveFile (index : nat)
| Upload
| RequestDelete (fileName : string)
| CancelDelete
| ConfirmDelete
| DismissError
| DismissSuccess.

(** An action runs the handler of the current render: the closure's snapshot
    is the state the world is in when the action fires. The handler is run
    to its end before anything else happens. *)
Definition dispatch (env : Env) (a : Action) : M unit :=
  fun w =>
    let snap := state w in
    match a with
    | Mount => fetchUploadedFiles env w
    | SelectFiles candidates => handleFileSelect snap candidates w
    | RemoveFile index => removeFile index w
    | Upload => uploadFiles env snap w
    | RequestDelete fileName => openDeleteConfirm fileName w
    | CancelDelete => closeDeleteConfirm w
    | ConfirmDelete => handleDeleteFile env snap w
    | DismissError => handleCloseError w
    | DismissSuccess => handleCloseSuccess w
    end.

Definition initial_world : World := mkWorld initial_state [] 0.

(** A session: actions fired one after the other, each on the render that
    follows the end of the previous handler; no two handlers overlap. *)
Definition session (env : Env) (actions : list Action) (w : World) : World :=
  fold_left (fun w a => snd (dispatch env a w)) actions w.

(** ** Vocabulary of the statements *)

Definition exec {A} (m : M A) (w : World) : World := snd (m w).
Definition completion {A} (m : M A) (w : World) : Completion A := fst (m w).

(** The body of a POST answer the upload loop accepts: a 2xx status and a
    JSON body that is not [null]. Every other answer makes the loop throw. *)
Definition post_data (r : FetchResult) : option Body :=
  match r with
  | FetchResolved (mkResponse true (JsonResolved (Some b))) => Some b
  | _ => None
  end.

Definition post_succeeds (r : FetchResult) : bool :=
  match post_data r with
  | Some _ => true
  | None => false
  end.

(** The file name a POST answer confirms. *)
Definition confirmed_name (r : FetchResult) : JsVal :=
  match post_data r with
  | Some b => body_fileName b
  | None => JUndefined
  end.

(** The names confirmed by the [n] answers from position [start] on. *)
Definition confirmed_names (env : Env) (start n : nat) : list JsVal :=
  map (fun i => confirmed_name (net env i)) (seq start n).

(** The model info the upload passes on, when the stored text is accepted:
    an absent or empty text gives [null]. *)
Definition stored_model_info (env : Env) : option JsVal :=
  match localStorage env "selectedModelInfo" with
  | None => Some JNull
  | Some str => if (str =? EmptyString)%string then Some JNull else JSON_parse env str
  end.

Definition upload_events (env : Env) (fs : list File) : list Event :=
  map (fun file => EvFetch (upload_request env file)) fs.

(** The calls of [onUploadSuccess] and of [onFileDeleted] seen in a trace. *)
Fixpoint upload_success_calls (tr : list Event) : list (list JsVal * JsVal) :=
  match tr with
  | [] => []
  | EvUploadSuccess names info :: rest => (names, info) :: upload_success_calls rest
  | _ :: rest => upload_success_calls rest
  end.

Fixpoint file_deleted_calls (tr : list Event) : list string :=
  match tr with
  | [] => []
  | EvFileDeleted fileName :: rest => fileName :: file_deleted_calls rest
  | _ :: rest => file_deleted_calls rest
  end.

(** The requests seen in a trace. *)
Fixpoint requests (tr : list Event) : list Request :=
  match tr with
  | [] => []
  | EvFetch rq :: rest => rq :: requests rest
  | _ :: rest => requests rest
  end.

(** Events of the list refresh: neither a callback nor the reload. *)
Definition is_refresh_event (ev : Event) : bool :=
  match ev with
  | EvFetch rq => match method rq with GET => true | _ => false end
  | EvConsoleError _ _ => true
  | _ => false
  end.

(** A DELETE answer the delete flow accepts: any resolved 2xx response. *)
Definition delete_accepted (r : FetchResult) : bool :=
  match r with
  | FetchResolved response => ok response
  | FetchRejected _ => false
  end.

(** What an accepted delete does after the list refresh: the callback, when
    supplied, then the reload, unless the callback threw. *)
Definition after_refresh (env : Env) (target : string) : list Event :=
  match onFileDeleted env with
  | Some cb =>
      EvFileDeleted target
      :: match cb target with
         | CallReturns => [EvReload]
         | CallThrows e => [EvConsoleError "删除文件出错:" e]
         end
  | None => [EvReload]
  end.

(** The files carried by the POST requests of a trace, in order. *)
Fixpoint uploads_in (tr : list Event) : list File :=
  match tr with
  | [] => []
  | EvFetch (mkRequest POST _ (Some file)) :: rest => file :: uploads_in rest
  | _ :: rest => uploads_in rest
  end.

(** The number of page reloads in a trace. *)
Fixpoint reloads (tr : list Event) : nat :=
  match tr with
  | [] => 0
  | EvReload :: rest => S (reloads rest)
  | _ :: rest => reloads rest
  end.

(** What the two notifications and the dialog show: [open={!!error}],
    [open={success}] and [open={deleteConfirmOpen}] in the rendered tree. *)
Definition error_banner_open (s : State) : bool := truthy_str (error s).
Definition success_banner_open (s : State) : bool := success s.
Definition dialog_open (s : State) : bool := deleteConfirmOpen s.

(** Characters that cannot end or split a query parameter: the unreserved
    ones, the percent sign and the upper-case hexadecimal digits. *)
Definition is_url_safe (c : ascii) : bool :=
  let n := nat_of_ascii c in
  is_unreserved c || (n =? 37) || ((65 <=? n) && (n <=? 70)).

Fixpoint string_forall (p : ascii -> bool) (s : string) : bool :=
  match s with
  | EmptyString => true
  | String c rest => p c && string_forall p rest
  end.

(** Actions that stay inside the component. *)
Definition is_local (a : Action) : bool :=
  match a with
  | Mount | Upload | ConfirmDelete => false
  | _ => true
  end.

(** What holds of the state whenever the component is at rest. *)
Definition at_rest (s : State) : Prop :=
  uploading s = false
  /\ loading s = false
  /\ forallb is_md (files s) = true
  /\ (deleteConfirmOpen s = true <-> fileToDelete s <> None).

(** The three requests of the component: the listing, the upload of a
    Markdown file, the delete of a named file. *)
Definition project_request (env : Env) (rq : Request) : Prop :=
  rq = list_request env
  \/ (exists file, is_md file = true /\ rq = upload_request env file)
  \/ (exists target, target <> EmptyString /\ rq = delete_request env target).

(** The value of a hexadecimal digit, either case. *)
Definition hex_value (c : ascii) : option nat :=
  let n := nat_of_ascii c in
  if (48 <=? n) && (n <=? 57) then Some (n - 48)
  else if (65 <=? n) && (n <=? 70) then Some (n - 55)
  else if (97 <=? n) && (n <=? 102) then Some (n - 87)
  else None.

(** Percent-decoding, as a server does on a query parameter: [%XX] gives
    the byte of value [XX], any other character stands for itself. *)
Fixpoint percent_decode (s : string) : option string :=
  match s with
  | EmptyString => Some EmptyString
  | String c rest =>
      if (nat_of_ascii c =? 37) then
        match rest with
        | String hi (String lo rest') =>
            match hex_value hi, hex_value lo, percent_decode rest' with
            | Some a, Some b, Some r => Some (String (ascii_of_nat (16 * a + b)) r)
            | _, _, _ => None
            end
        | _ => None
        end
      else
        match percent_decode rest with
        | Some r => Some (String c r)
        | None => None
        end
  end.

(** The state between two actions of a session that start on a fresh mount
    and do not overlap. *)
Definition reachable (env : Env) (s : State) : Prop :=
  exists actions, s = state (session env actions initial_world).

(** ** Concrete worlds, for running the model *)

Module Demo.

Definition notes : File := mkFile "notes.md" "# Notes".
Definition draft : File := mkFile "draft.md" "# Draft".
Definition photo : File := mkFile "photo.png" "PNG".
Definition sheet : File := mkFile "sheet.xlsx" "PK".

Definition storage (key : string) : option string :=
  if (key =? "selectedModelId")%string then Some "model-7"
  else if (key =? "selectedModelInfo")%string then Some "[1,2]"
  else None.

Definition empty_storage (key : string) : option string := None.

Definition garbled_storage (key : string) : option string :=
  if (key =? "selectedModelId")%string then Some "model-7"
  else if (key =? "selectedModelInfo")%string then Some "{oops"
  else None.

Definition blank_info_storage (key : string) : option string :=
  if (key =? "selectedModelId")%string then Some "model-7"
  else if (key =? "selectedModelInfo")%string then Some EmptyString
  else None.

(** A parser that knows two texts; it rejects the rest, the empty text
    included, as [JSON.parse] does. *)
Definition parse (text : string) : option JsVal :=
  if (text =? "null")%string then Some JNull
  else if (text =? "[1,2]")%string then Some (JArr [JNum "1"; JNum "2"])
  else None.

Definition type_error (p : string) : JsError :=
  mkError ("Cannot read properties of null (reading '" ++ p ++ "')")%string.

Definition created (fileName : string) : FetchResult :=
  FetchResolved (mkResponse true (JsonResolved (Some (mkBody JUndefined None (JStr fileName))))).

Definition listing (l : list JsVal) : FetchResult :=
  FetchResolved (mkResponse true (JsonResolved (Some (mkBody JUndefined (Some l) JUndefined)))).

Definition refused (status_text : string) : FetchResult :=
  FetchResolved (mkResponse false (JsonResolved (Some (mkBody (JStr status_text) None JUndefined)))).

Definition stored_notes : JsVal := JObj [("name", JStr "notes.md")].

(** Two uploads accepted, then the listing. *)
Definition friendly_net (n : nat) : FetchResult :=
  match n with
  | 0 => created "notes.md"
  | 1 => created "draft.md"
  | _ => listing [stored_notes]
  end.

(** One upload accepted, then the listing. *)
Definition single_net (n : nat) : FetchResult :=
  match n with
  | 0 => created "notes.md"
  | _ => listing [stored_notes]
  end.

(** The second upload is refused. *)
Definition flaky_net (n : nat) : FetchResult :=
  match n with
  | 0 => created "notes.md"
  | 1 => refused "disk full"
  | _ => listing []
  end.

(** Every request is refused. *)
Definition refusing_net (n : nat) : FetchResult := refused "locked".

(** A delete accepted, then an empty listing. *)
Definition delete_net (n : nat) : FetchResult :=
  match n with
  | 0 => FetchResolved (mkResponse true (JsonRejected (mkError "no body")))
  | _ => listing []
  end.

Definition accept_upload (names : list JsVal) (info : JsVal) : CallResult := CallReturns.
Definition accept_delete (fileName : string) : CallResult := CallReturns.

Definition env_with (store : string -> option string) (answers : nat -> FetchResult) : Env :=
  mkEnv "p1" (Some accept_upload) (Some accept_delete) store parse answers type_error.

Definition staged (fs : list File) : State := with_files fs initial_state.
Definition world_of (s : State) : World := mkWorld s [] 0.

End Demo.

(** * Properties *)

Example endsWith_md : endsWith "notes.md" ".md" = true.
Proof. reflexivity. Qed.

Example endsWith_txt : endsWith "notes.md.txt" ".md" = false.
Proof. reflexivity. Qed.

Example endsWith_short : endsWith "md" ".md" = false.
Proof. reflexivity. Qed.

Example encode_plain : encodeURIComponent "doc.md" = "doc.md".
Proof. reflexivity. Qed.

Example encode_space : encodeURIComponent "my doc&1.md" = "my%20doc%261.md".
Proof. reflexivity. Qed.

Example encode_utf8 : encodeURIComponent "文.md" = "%E6%96%87.md".
Proof. reflexivity. Qed.

Example ToString_array : ToString (JArr [JNum "1"; JNull; JStr "a"]) = "1,,a".
Proof. reflexivity. Qed.

Example nat_to_string_12 : nat_to_string 12 = "12".
Proof. reflexivity. Qed.

Example nat_to_string_0 : nat_to_string 0 = "0".
Proof. reflexivity. Qed.

(** A whole session on a friendly server: the listing on mount is empty,
    three files are selected and the two Markdown ones staged, one of them
    is removed, the other is uploaded. *)
Example session_select_remove_upload :
  let env := Demo.env_with Demo.storage
               (fun n => match n with
                         | 0 => Demo.listing []
                         | 1 => Demo.created "draft.md"
                         | _ => Demo.listing [JObj [("name", JStr "draft.md")]]
                         end) in
  let w := session env [Mount;
                        SelectFiles [Demo.notes; Demo.photo; Demo.draft];
                        RemoveFile 0;
                        DismissError;
                        Upload] initial_world in
  files (state w) = []
  /\ uploadedFiles (state w) = [JObj [("name", JStr "draft.md")]]
  /\ error (state w) = None
  /\ requests (trace w)
     = [list_request env; upload_request env Demo.draft; list_request env]
  /\ upload_success_calls (trace w) = [([JStr "draft.md"], JArr [JNum "1"; JNum "2"])].
Proof. vm_compute. repeat split. Qed.

(** With a file already on the server, nothing can be staged, so [Upload]
    has nothing to send. *)
Example session_one_file_per_project :
  let env := Demo.env_with Demo.storage (fun _ => Demo.listing [Demo.stored_notes]) in
  let w := session env [Mount; SelectFiles [Demo.draft]; Upload] initial_world in
  files (state w) = []
  /\ error (state w) = Some single_file_limit
  /\ requests (trace w) = [list_request env].
Proof. vm_compute. repeat split. Qed.

Example unsupported_format_two :
  unsupported_format ["a.txt"; "b.pdf"]
  = "不支持的文件格式: a.txt, b.pdf。目前仅支持Markdown文件。".
Proof. reflexivity. Qed.

Example uploaded_count_two : uploaded_count 2 = "成功上传 2 个文件".
Proof. reflexivity. Qed.

Example deleted_file_doc : deleted_file "doc.md" = "成功删除文件 doc.md".
Proof. reflexivity. Qed.

Example lone_surrogate_found :
  has_lone_surrogate (String (ascii_of_nat 237) (String (ascii_of_nat 160)
                        (String (ascii_of_nat 128) ".md"))) = true
  /\ has_lone_surrogate "文.md" = false.
Proof. split; reflexivity. Qed.

Example percent_decode_escaped : percent_decode "my%20doc%261.md" = Some "my doc&1.md".
Proof. reflexivity. Qed.

(** ** Builtins *)

Section Strings.

Lemma length_append (p s : string) :
  String.length (p ++ s)%string = String.length p + String.length s.
Proof. induction p as [|c p IH]; simpl; [reflexivity | now rewrite IH]. Qed.

Lemma substring_whole (s : string) : substring 0 (String.length s) s = s.
Proof. induction s as [|c s IH]; simpl; [reflexivity | now rewrite IH]. Qed.

Lemma substring_past_prefix (p s : string) (m : nat) :
  substring (String.length p) m (p ++ s)%string = substring 0 m s.
Proof. induction p as [|c p IH]; simpl; [reflexivity | exact IH]. Qed.

Lemma substring_cut (s : string) :
  forall k, k <= String.length s ->
  s = (substring 0 k s ++ substring k (String.length s - k) s)%string.
Proof.
  induction s as [|c s IH]; intros k Hk.
  - destruct k; reflexivity.
  - destruct k as [|k]; simpl.
    + now rewrite substring_whole.
    + simpl in Hk. f_equal. apply IH. lia.
Qed.

(** [endsWith] holds exactly of the strings that are some prefix followed
    by the suffix. *)
Lemma endsWith_spec (s suffix : string) :
  endsWith s suffix = true <-> exists p, s = (p ++ suffix)%string.
Proof.
  unfold endsWith. split.
  - intros H. apply andb_true_iff in H as [Hle Heq].
    apply Nat.leb_le in Hle. apply String.eqb_eq in Heq.
    exists (substring 0 (String.length s - String.length suffix) s).
    pose proof (substring_cut s (String.length s - String.length suffix)) as Hcut.
    replace (String.length s - (String.length s - String.length suffix))
      with (String.length suffix) in Hcut by lia.
    rewrite Heq in Hcut. apply Hcut. lia.
  - intros [p ->]. rewrite length_append. apply andb_true_iff. split.
    + apply Nat.leb_le. lia.
    + replace (String.length p + String.length suffix - String.length suffix)
        with (String.length p) by lia.
      rewrite substring_past_prefix, substring_whole. apply String.eqb_refl.
Qed.

End Strings.

(** ** Percent-encoding *)

Lemma nat_of_hex_digit (k : nat) :
  k < 16 -> nat_of_ascii (hex_digit k) = if k <? 10 then 48 + k else 55 + k.
Proof.
  intros Hk. unfold hex_digit.
  destruct (k <? 10) eqn:E; apply nat_ascii_embedding;
    [apply Nat.ltb_lt in E | apply Nat.ltb_ge in E]; lia.
Qed.

Lemma hex_digit_inj (a b : nat) :
  a < 16 -> b < 16 -> hex_digit a = hex_digit b -> a = b.
Proof.
  intros Ha Hb H. apply (f_equal nat_of_ascii) in H.
  rewrite !nat_of_hex_digit in H by assumption.
  destruct (a <? 10) eqn:Ea; destruct (b <? 10) eqn:Eb;
    try apply Nat.ltb_lt in Ea; try apply Nat.ltb_ge in Ea;
    try apply Nat.ltb_lt in Eb; try apply Nat.ltb_ge in Eb; lia.
Qed.

Lemma hex_digit_safe (k : nat) : k < 16 -> is_url_safe (hex_digit k) = true.
Proof.
  intros Hk. do 16 (destruct k as [|k]; [reflexivity|]). lia.
Qed.

Lemma nat_of_ascii_bound (c : ascii) : nat_of_ascii c < 256.
Proof. apply nat_ascii_bounded. Qed.

Lemma percent_encode_inj (c1 c2 : ascii) (x y : string) :
  (percent_encode c1 ++ x = percent_encode c2 ++ y)%string -> c1 = c2 /\ x = y.
Proof.
  unfold percent_encode. intros H.
  pose proof (nat_of_ascii_bound c1) as B1. pose proof (nat_of_ascii_bound c2) as B2.
  assert (Hh1 : nat_of_ascii c1 / 16 < 16) by (apply Nat.Div0.div_lt_upper_bound; lia).
  assert (Hh2 : nat_of_ascii c2 / 16 < 16) by (apply Nat.Div0.div_lt_upper_bound; lia).
  assert (Hl1 : nat_of_ascii c1 mod 16 < 16) by (apply Nat.mod_upper_bound; lia).
  assert (Hl2 : nat_of_ascii c2 mod 16 < 16) by (apply Nat.mod_upper_bound; lia).
  pose proof (Nat.div_mod_eq (nat_of_ascii c1) 16) as D1.
  pose proof (Nat.div_mod_eq (nat_of_ascii c2) 16) as D2.
  remember (nat_of_ascii c1 / 16) as h1. remember (nat_of_ascii c1 mod 16) as l1.
  remember (nat_of_ascii c2 / 16) as h2. remember (nat_of_ascii c2 mod 16) as l2.
  cbn [String.append] in H. inversion H as [[Hhi Hlo Hrest]].
  apply hex_digit_inj in Hhi; [|assumption ..].
  apply hex_digit_inj in Hlo; [|assumption ..].
  split; [|reflexivity].
  rewrite <- (ascii_nat_embedding c1), <- (ascii_nat_embedding c2).
  f_equal. lia.
Qed.

Lemma unreserved_is_not_percent (c : ascii) :
  is_unreserved c = true -> c <> "%"%char.
Proof. intros H ->. discriminate H. Qed.

(** [encodeURIComponent] loses nothing: different names are encoded
    differently. *)
Lemma encodeURIComponent_inj (s1 : string) :
  forall s2, encodeURIComponent s1 = encodeURIComponent s2 -> s1 = s2.
Proof.
  induction s1 as [|c1 r1 IH]; intros [|c2 r2] H; simpl in H.
  - reflexivity.
  - destruct (is_unreserved c2); discriminate H.
  - destruct (is_unreserved c1); discriminate H.
  - destruct (is_unreserved c1) eqn:U1; destruct (is_unreserved c2) eqn:U2.
    + inversion H as [[Hc Hr]]. f_equal. now apply IH.
    + simpl in H. inversion H as [[Hc Hr]]. subst c1.
      now apply unreserved_is_not_percent in U1.
    + simpl in H. inversion H as [[Hc Hr]]. subst c2.
      now apply unreserved_is_not_percent in U2.
    + apply percent_encode_inj in H as [-> Hr]. f_equal. now apply IH.
Qed.

Lemma append_inv_head (p a b : string) : (p ++ a = p ++ b)%string -> a = b.
Proof.
  induction p as [|c p IH]; simpl; intros H; [exact H|].
  inversion H. now apply IH.
Qed.

Lemma append_assoc (a b c : string) : ((a ++ b) ++ c = a ++ (b ++ c))%string.
Proof. induction a as [|x a IH]; simpl; [reflexivity | now rewrite IH]. Qed.

Lemma string_forall_append (p : ascii -> bool) (s t : string) :
  string_forall p (s ++ t)%string = string_forall p s && string_forall p t.
Proof.
  induction s as [|c s IH]; simpl; [reflexivity|].
  now rewrite IH, andb_assoc.
Qed.

Lemma percent_encode_safe (c : ascii) :
  string_forall is_url_safe (percent_encode c) = true.
Proof.
  unfold percent_encode.
  pose proof (nat_of_ascii_bound c) as B.
  assert (Hh : nat_of_ascii c / 16 < 16) by (apply Nat.Div0.div_lt_upper_bound; lia).
  assert (Hl : nat_of_ascii c mod 16 < 16) by (apply Nat.mod_upper_bound; lia).
  remember (nat_of_ascii c / 16) as h. remember (nat_of_ascii c mod 16) as l.
  cbn [string_forall]. now rewrite !hex_digit_safe by assumption.
Qed.

Lemma encodeURIComponent_safe (s : string) :
  string_forall is_url_safe (encodeURIComponent s) = true.
Proof.
  induction s as [|c r IH]; cbn [encodeURIComponent]; [reflexivity|].
  destruct (is_unreserved c) eqn:U.
  - cbn [string_forall]. rewrite IH. unfold is_url_safe. now rewrite U.
  - now rewrite string_forall_append, percent_encode_safe, IH.
Qed.

Lemma encodeURIComponent_plain (s : string) :
  string_forall is_unreserved s = true -> encodeURIComponent s = s.
Proof.
  induction s as [|c r IH]; simpl; [reflexivity|].
  intros H. apply andb_true_iff in H as [Hc Hr]. rewrite Hc. f_equal. now apply IH.
Qed.

Lemma hex_value_hex_digit (k : nat) : k < 16 -> hex_value (hex_digit k) = Some k.
Proof.
  intros Hk. do 16 (destruct k as [|k]; [reflexivity|]). lia.
Qed.

Lemma percent_decode_percent_encode (c : ascii) (r d : string) :
  percent_decode r = Some d ->
  percent_decode (percent_encode c ++ r) = Some (String c d).
Proof.
  intros Hr. unfold percent_encode.
  pose proof (nat_of_ascii_bound c) as B.
  assert (Hh : nat_of_ascii c / 16 < 16) by (apply Nat.Div0.div_lt_upper_bound; lia).
  assert (Hl : nat_of_ascii c mod 16 < 16) by (apply Nat.mod_upper_bound; lia).
  pose proof (Nat.div_mod_eq (nat_of_ascii c) 16) as D.
  remember (nat_of_ascii c / 16) as h. remember (nat_of_ascii c mod 16) as l.
  cbn [String.append percent_decode].
  change (nat_of_ascii "%" =? 37) with true. cbn iota.
  rewrite !hex_value_hex_digit, Hr by assumption.
  do 2 f_equal. rewrite <- D. apply ascii_nat_embedding.
Qed.

(** Decoding undoes the encoding, on every string. *)
Lemma percent_decode_encodeURIComponent (s : string) :
  percent_decode (encodeURIComponent s) = Some s.
Proof.
  induction s as [|c r IH]; cbn [encodeURIComponent]; [reflexivity|].
  destruct (is_unreserved c) eqn:U.
  - cbn [percent_decode].
    destruct (Nat.eqb_spec (nat_of_ascii c) 37) as [E|_].
    + exfalso. unfold is_unreserved in U. rewrite E in U. discriminate U.
    + now rewrite IH.
  - now apply percent_decode_percent_encode.
Qed.

Lemma append_empty_r (s : string) : (s ++ EmptyString)%string = s.
Proof. induction s as [|c s IH]; simpl; [reflexivity | now rewrite IH]. Qed.

(** A name occurs in the text that joins a list holding it. *)
Lemma concat_mentions (sep x : string) (l : list string) :
  In x l -> exists before after, String.concat sep l = (before ++ x ++ after)%string.
Proof.
  induction l as [|y l IH]; intros Hin; [contradiction|].
  destruct Hin as [-> | Hin].
  - destruct l as [|z l].
    + exists EmptyString, EmptyString. simpl. now rewrite append_empty_r.
    + exists EmptyString, (sep ++ String.concat sep (z :: l))%string. reflexivity.
  - destruct (IH Hin) as (before & after & Hl).
    destruct l as [|z l]; [contradiction|].
    exists (y ++ sep ++ before)%string, after.
    cbn [String.concat]. cbn [String.concat] in Hl. rewrite Hl.
    now rewrite !append_assoc.
Qed.

(** ** Indexed filter *)

Section FilterIndexed.

Context {A : Type}.

Lemma filter_from_drop (index : nat) (l : list A) :
  forall base, index < List.length l ->
  filter_from (fun _ i => negb (i =? base + index)) base l
  = firstn index l ++ skipn (S index) l.
Proof.
  revert index. induction l as [|x l IH]; intros index base Hi; simpl in Hi.
  - lia.
  - destruct index as [|index]; simpl.
    + rewrite Nat.add_0_r, Nat.eqb_refl. simpl.
      clear IH Hi. generalize (Nat.lt_succ_diag_r base). generalize (S base) as j.
      induction l as [|y l IHl]; intros j Hj; simpl; [reflexivity|].
      destruct (Nat.eqb_spec j base) as [->|_]; [lia|]. simpl.
      f_equal. apply IHl. lia.
    + destruct (Nat.eqb_spec base (base + S index)) as [E|_]; [lia|]. simpl.
      f_equal. replace (base + S index) with (S base + index) by lia.
      apply IH. lia.
Qed.

Lemma filter_from_miss (index : nat) (l : list A) :
  forall base, base + List.length l <= index ->
  filter_from (fun _ i => negb (i =? index)) base l = l.
Proof.
  induction l as [|x l IH]; intros base Hi; simpl in *; [reflexivity|].
  destruct (Nat.eqb_spec base index) as [->|_]; [lia|]. simpl.
  f_equal. apply IH. lia.
Qed.

End FilterIndexed.

(** ** Local state operations *)

(** C7: [removeFile(i)] at a valid position [i] leaves [files] one entry
    shorter; what remains is the entries before [i] followed by the entries
    after [i], so their relative order is kept. Nothing else changes. *)
Theorem removeFile_valid_index (i : nat) (w : World) :
  i < List.length (files (state w)) ->
  let fs := files (state w) in
  let w' := exec (removeFile i) w in
  completion (removeFile i) w = Normal tt
  /\ files (state w') = firstn i fs ++ skipn (S i) fs
  /\ S (List.length (files (state w'))) = List.length fs
  /\ w' = mkWorld (with_files (firstn i fs ++ skipn (S i) fs) (state w)) (trace w) (clock w).
Proof.
  intros Hi fs w'.
  assert (E : filter_indexed (fun (_ : File) j => negb (j =? i)) fs
              = firstn i fs ++ skipn (S i) fs).
  { unfold filter_indexed. apply (filter_from_drop i fs 0 Hi). }
  subst w'. unfold exec, completion, removeFile, setFiles, modify. simpl.
  fold fs. rewrite E. repeat split.
  rewrite length_app, length_firstn, length_skipn. subst fs. lia.
Qed.

Lemma removeFile_valid_index_witness :
  files (state (exec (removeFile 1)
                  (Demo.world_of (Demo.staged [Demo.notes; Demo.photo; Demo.draft]))))
  = [Demo.notes; Demo.draft].
Proof.
  pose proof (removeFile_valid_index 1
                (Demo.world_of (Demo.staged [Demo.notes; Demo.photo; Demo.draft]))) as H.
  simpl in H. destruct H as (_ & H & _); [lia | exact H].
Defined.

(** [uploadFiles] with nothing staged does nothing. *)
Lemma uploadFiles_nothing_staged (env : Env) (snap : State) (w : World) :
  files snap = [] -> uploadFiles env snap w = (Normal tt, w).
Proof. intros H. unfold uploadFiles. now rewrite H. Qed.

(** X23: [removeFile] with a position past the end of the staged list
    removes nothing and raises no error: the handler completes normally
    and the whole world (every state cell, [error] included, and the
    trace) is as before. *)
Theorem removeFile_out_of_range (i : nat) (w : World) :
  List.length (files (state w)) <= i ->
  removeFile i w = (Normal tt, w).
Proof.
  intros Hi. unfold removeFile, setFiles, modify, filter_indexed.
  rewrite filter_from_miss by (simpl; exact Hi).
  destruct w as [[fs ups up lo er su sm dco ftd] tr c]. reflexivity.
Qed.

(** C8: dismissing the error notification twice is the same as dismissing it
    once, and likewise for the success notification. *)
Theorem dismiss_idempotent (w : World) :
  exec handleCloseError (exec handleCloseError w) = exec handleCloseError w
  /\ exec handleCloseSuccess (exec handleCloseSuccess w) = exec handleCloseSuccess w.
Proof. split; reflexivity. Qed.

Lemma dismiss_clears (w : World) :
  error (state (exec handleCloseError w)) = None
  /\ success (state (exec handleCloseSuccess w)) = false.
Proof. split; reflexivity. Qed.

(** ** File selection *)

Lemma is_md_spec (file : File) :
  is_md file = true <-> exists stem, name file = (stem ++ ".md")%string.
Proof. unfold is_md. apply endsWith_spec. Qed.

(** C3: with a file already uploaded, selection accepts nothing and sets the
    single-file-limit error. Otherwise the candidates whose names end in
    [.md], and only those, are appended to [files] in their order; the
    other candidates are rejected, and when there is one, [error] is set
    to a single message that holds the names of all of them, in order and
    separated by a comma and a space, between a fixed head and tail. *)
Theorem handleFileSelect_partition (snap : State) (candidates : list File) (w : World) :
  let w' := exec (handleFileSelect snap candidates) w in
  let accepted := filter is_md candidates in
  let rejected := filter (fun file => negb (is_md file)) candidates in
  completion (handleFileSelect snap candidates) w = Normal tt
  /\ (uploadedFiles snap <> [] ->
      w' = mkWorld
             (with_error
                (Some "一个项目限制处理一个文件，如需上传新文件请先删除现有文件")
                (state w))
             (trace w) (clock w))
  /\ (uploadedFiles snap = [] ->
      files (state w') = files (state w) ++ accepted
      /\ (forall file, In file accepted <->
                       In file candidates /\ exists stem, name file = (stem ++ ".md")%string)
      /\ (forall file, In file rejected <->
                       In file candidates
                       /\ ~ exists stem, name file = (stem ++ ".md")%string)
      /\ (rejected <> [] ->
          error (state w')
          = Some ("不支持的文件格式: "
                  ++ String.concat ", " (map name rejected)
                  ++ "。目前仅支持Markdown文件。")%string
          /\ forall file, In file rejected ->
               exists before after,
                 error (state w') = Some (before ++ name file ++ after)%string)
      /\ (rejected = [] -> error (state w') = error (state w))
      /\ uploadedFiles (state w') = uploadedFiles (state w)
      /\ trace w' = trace w).
Proof.
  intros w' accepted rejected. subst w'.
  unfold exec, completion, handleFileSelect.
  destruct (uploadedFiles snap) as [|u us] eqn:Hup; simpl.
  - fold accepted rejected. split; [|split].
    + destruct rejected, accepted; reflexivity.
    + intros Hne. now contradiction Hne.
    + intros _. split; [|split; [|split; [|split; [|split; [|split]]]]].
      * destruct rejected, accepted; simpl; try reflexivity;
          now rewrite app_nil_r.
      * intros file. unfold accepted. rewrite filter_In, is_md_spec. tauto.
      * intros file. unfold rejected. rewrite filter_In, negb_true_iff.
        rewrite <- is_md_spec. destruct (is_md file); intuition congruence.
      * intros Hne.
        assert (Hmsg : error (state (snd
                         ((when (0 <? List.length rejected)
                             (setError (Some (unsupported_format (map name rejected)))) ;;
                           when (0 <? List.length accepted)
                             (setFiles (fun prev => prev ++ accepted))) w)))
                       = Some ("不支持的文件格式: "
                               ++ String.concat ", " (map name rejected)
                               ++ "。目前仅支持Markdown文件。")%string).
        { destruct rejected; [now contradiction Hne|]. destruct accepted; reflexivity. }
        split; [exact Hmsg|].
        intros file Hin. rewrite Hmsg.
        destruct (concat_mentions ", " (name file) (map name rejected)) as (b & a & Hcat).
        { now apply in_map. }
        exists ("不支持的文件格式: " ++ b)%string, (a ++ "。目前仅支持Markdown文件。")%string.
        rewrite Hcat. now rewrite !append_assoc.
      * intros ->. destruct accepted; reflexivity.
      * destruct rejected, accepted; reflexivity.
      * destruct rejected, accepted; reflexivity.
  - split; [reflexivity|]. split; [reflexivity|]. intros Hnil. discriminate Hnil.
Qed.

Lemma handleFileSelect_partition_witness :
  files (state (exec (handleFileSelect initial_state
                        [Demo.notes; Demo.photo; Demo.draft; Demo.sheet]) initial_world))
  = [Demo.notes; Demo.draft]
  /\ error (state (exec (handleFileSelect initial_state
                           [Demo.notes; Demo.photo; Demo.draft; Demo.sheet]) initial_world))
     = Some "不支持的文件格式: photo.png, sheet.xlsx。目前仅支持Markdown文件。"
  /\ exec (handleFileSelect (with_uploadedFiles [Demo.stored_notes] initial_state)
             [Demo.notes]) initial_world
     = mkWorld (with_error
                  (Some "一个项目限制处理一个文件，如需上传新文件请先删除现有文件")
                  initial_state) [] 0.
Proof.
  destruct (handleFileSelect_partition initial_state
              [Demo.notes; Demo.photo; Demo.draft; Demo.sheet] initial_world)
    as (_ & _ & Hempty).
  destruct (Hempty eq_refl) as (Hfiles & _ & _ & Herr & _).
  destruct (handleFileSelect_partition (with_uploadedFiles [Demo.stored_notes] initial_state)
              [Demo.notes] initial_world)
    as (_ & Hfull & _).
  split; [exact Hfiles|]. split.
  - apply Herr. simpl. discriminate.
  - apply Hfull. simpl. discriminate.
Defined.

(** ** Upload: the model lookup *)

Lemma read_model_info_absent (env : Env) (w : World) :
  truthy_str (localStorage env "selectedModelId") = false ->
  read_model_info env w = (Throw (mkError no_model_selected), w).
Proof. intros H. unfold read_model_info, when, bind. rewrite H. reflexivity. Qed.

Lemma read_model_info_accepted (env : Env) (info : JsVal) (w : World) :
  truthy_str (localStorage env "selectedModelId") = true ->
  stored_model_info env = Some info ->
  read_model_info env w = (Normal info, w).
Proof.
  intros Hid Hinfo. unfold read_model_info, stored_model_info, when, bind in *.
  rewrite Hid. simpl.
  destruct (localStorage env "selectedModelInfo") as [str|]; simpl.
  - destruct (str =? EmptyString)%string; simpl.
    + now inversion Hinfo.
    + now rewrite Hinfo.
  - now inversion Hinfo.
Qed.

Lemma read_model_info_rejected (env : Env) (w : World) :
  truthy_str (localStorage env "selectedModelId") = true ->
  stored_model_info env = None ->
  read_model_info env w = (Throw (mkError model_info_parse_error), w).
Proof.
  intros Hid Hinfo. unfold read_model_info, stored_model_info, when, bind in *.
  rewrite Hid. simpl.
  destruct (localStorage env "selectedModelInfo") as [str|]; simpl; [|discriminate].
  destruct (str =? EmptyString)%string; simpl; [discriminate|].
  now rewrite Hinfo.
Qed.

(** The upload ends at the model lookup when this one throws: no request,
    [files] untouched, the message shown, [uploading] back to false. *)
Lemma handleStartUpload_stops_at_lookup (env : Env) (snap : State) (w : World) (msg : string) :
  read_model_info env (exec (setUploading true ;; setError None) w)
  = (Throw (mkError msg), exec (setUploading true ;; setError None) w) ->
  msg <> EmptyString ->
  handleStartUpload env snap w
  = (Normal tt,
     mkWorld (mkState (files (state w)) (uploadedFiles (state w)) false (loading (state w))
                      (Some msg) (success (state w)) (successMessage (state w))
                      (deleteConfirmOpen (state w)) (fileToDelete (state w)))
             (trace w) (clock w)).
Proof.
  intros Hread Hmsg.
  unfold handleStartUpload, try_finally, try_catch, bind at 1 2 3.
  unfold exec in Hread. simpl in Hread. simpl. rewrite Hread. simpl.
  unfold str_or_else. destruct (String.eqb_spec msg EmptyString) as [E|_]; [contradiction|].
  reflexivity.
Qed.

(** C4: with no [selectedModelId] in local storage, the upload sets the
    no-model-selected error without issuing any request; [files] is
    unchanged and [uploading] is false at the end. *)
Theorem upload_without_model (env : Env) (snap : State) (w : World) :
  localStorage env "selectedModelId" = None ->
  let w' := exec (handleStartUpload env snap) w in
  completion (handleStartUpload env snap) w = Normal tt
  /\ error (state w') = Some no_model_selected
  /\ trace w' = trace w
  /\ clock w' = clock w
  /\ files (state w') = files (state w)
  /\ uploading (state w') = false.
Proof.
  intros Hid w'. subst w'. unfold exec, completion.
  rewrite (handleStartUpload_stops_at_lookup env snap w no_model_selected).
  - repeat split.
  - apply read_model_info_absent. now rewrite Hid.
  - discriminate.
Qed.

Lemma upload_without_model_witness :
  let env := Demo.env_with Demo.empty_storage Demo.friendly_net in
  let w := Demo.world_of (Demo.staged [Demo.notes; Demo.draft]) in
  error (state (exec (handleStartUpload env (state w)) w)) = Some no_model_selected
  /\ trace (exec (handleStartUpload env (state w)) w) = []
  /\ files (state (exec (handleStartUpload env (state w)) w)) = [Demo.notes; Demo.draft].
Proof.
  intros env w.
  destruct (upload_without_model env (state w) w eq_refl) as (_ & He & Ht & _ & Hf & _).
  split; [exact He|]. split; [exact Ht | exact Hf].
Defined.

(** An empty [selectedModelId] is as good as none. *)
Lemma upload_with_empty_model_id (env : Env) (snap : State) (w : World) :
  localStorage env "selectedModelId" = Some EmptyString ->
  error (state (exec (handleStartUpload env snap) w)) = Some no_model_selected
  /\ trace (exec (handleStartUpload env snap) w) = trace w.
Proof.
  intros Hid. unfold exec.
  rewrite (handleStartUpload_stops_at_lookup env snap w no_model_selected).
  - split; reflexivity.
  - apply read_model_info_absent. now rewrite Hid.
  - discriminate.
Qed.

(** C5, as the code has it: with a non-empty [selectedModelId] and a
    non-empty [selectedModelInfo] that [JSON.parse] rejects, the upload sets
    the parse error without issuing any request; [files] is unchanged and
    [uploading] is false at the end. *)
Theorem upload_with_garbled_model_info (env : Env) (snap : State) (w : World) (text : string) :
  truthy_str (localStorage env "selectedModelId") = true ->
  localStorage env "selectedModelInfo" = Some text ->
  text <> EmptyString ->
  JSON_parse env text = None ->
  let w' := exec (handleStartUpload env snap) w in
  completion (handleStartUpload env snap) w = Normal tt
  /\ error (state w') = Some model_info_parse_error
  /\ trace w' = trace w
  /\ clock w' = clock w
  /\ files (state w') = files (state w)
  /\ uploading (state w') = false.
Proof.
  intros Hid Hinfo Htext Hparse w'. subst w'. unfold exec, completion.
  rewrite (handleStartUpload_stops_at_lookup env snap w model_info_parse_error).
  - repeat split.
  - apply read_model_info_rejected; [exact Hid|].
    unfold stored_model_info. rewrite Hinfo.
    destruct (String.eqb_spec text EmptyString) as [E|_]; [contradiction | exact Hparse].
  - discriminate.
Qed.

Lemma upload_with_garbled_model_info_witness :
  let env := Demo.env_with Demo.garbled_storage Demo.friendly_net in
  let w := Demo.world_of (Demo.staged [Demo.notes; Demo.draft]) in
  error (state (exec (handleStartUpload env (state w)) w)) = Some model_info_parse_error
  /\ trace (exec (handleStartUpload env (state w)) w) = []
  /\ files (state (exec (handleStartUpload env (state w)) w)) = [Demo.notes; Demo.draft].
Proof.
  intros env w.
  assert (Hne : "{oops" <> EmptyString) by discriminate.
  destruct (upload_with_garbled_model_info env (state w) w "{oops" eq_refl eq_refl Hne eq_refl)
    as (_ & He & Ht & _ & Hf & _).
  split; [exact He|]. split; [exact Ht | exact Hf].
Defined.

(** C5 as stated fails on the empty text: it is not valid JSON, yet the
    guard [if (modelInfoStr)] skips it, the file is posted and the upload
    succeeds with [null] as model info. *)
Lemma empty_model_info_is_skipped :
  let env := Demo.env_with Demo.blank_info_storage Demo.single_net in
  let w := Demo.world_of (Demo.staged [Demo.notes]) in
  let w' := exec (handleStartUpload env (state w)) w in
  localStorage env "selectedModelId" = Some "model-7"
  /\ localStorage env "selectedModelInfo" = Some EmptyString
  /\ JSON_parse env EmptyString = None
  /\ trace w' = [EvFetch (upload_request env Demo.notes);
                 EvFetch (list_request env);
                 EvUploadSuccess [JStr "notes.md"] JNull]
  /\ error (state w') = None
  /\ files (state w') = [].
Proof. vm_compute. repeat split. Qed.

(** ** Sequencing *)

Section Sequencing.

Context {A B : Type}.

Lemma bind_normal (m : M A) (k : A -> M B) (w w1 : World) (a : A) :
  m w = (Normal a, w1) -> bind m k w = k a w1.
Proof. intros H. unfold bind. now rewrite H. Qed.

Lemma bind_throw (m : M A) (k : A -> M B) (w w1 : World) (e : JsError) :
  m w = (Throw e, w1) -> bind m k w = (Throw e, w1).
Proof. intros H. unfold bind. now rewrite H. Qed.

Lemma bind_modify (f : State -> State) (k : unit -> M B) (w : World) :
  bind (modify f) k w = k tt (mkWorld (f (state w)) (trace w) (clock w)).
Proof. reflexivity. Qed.

Lemma bind_emit (ev : Event) (k : unit -> M B) (w : World) :
  bind (emit ev) k w = k tt (mkWorld (state w) (trace w ++ [ev]) (clock w)).
Proof. reflexivity. Qed.

Lemma try_catch_normal (body : M A) (handler : JsError -> M A) (w w1 : World) (a : A) :
  body w = (Normal a, w1) -> try_catch body handler w = (Normal a, w1).
Proof. intros H. unfold try_catch. now rewrite H. Qed.

Lemma try_catch_throw (body : M A) (handler : JsError -> M A) (w w1 : World) (e : JsError) :
  body w = (Throw e, w1) -> try_catch body handler w = handler e w1.
Proof. intros H. unfold try_catch. now rewrite H. Qed.

Lemma try_finally_modify (body : M A) (f : State -> State) (w w1 : World) (c : Completion A) :
  body w = (c, w1) ->
  try_finally body (modify f) w = (c, mkWorld (f (state w1)) (trace w1) (clock w1)).
Proof. intros H. unfold try_finally. now rewrite H. Qed.

End Sequencing.

Lemma outcome_eq {A} (c : Completion A) (s s' : State) (t t' : list Event) (n n' : nat) :
  t = t' -> s = s' -> n = n' -> (c, mkWorld s t n) = (c, mkWorld s' t' n').
Proof. now intros -> -> ->. Qed.

Lemma fetch_resolved (env : Env) (rq : Request) (w : World) (r : Response) :
  net env (clock w) = FetchResolved r ->
  fetch env rq w = (Normal r, mkWorld (state w) (trace w ++ [EvFetch rq]) (S (clock w))).
Proof. intros H. unfold fetch. now rewrite H. Qed.

Lemma world_eta (w : World) : mkWorld (state w) (trace w) (clock w) = w.
Proof. now destruct w. Qed.

Lemma str_or_else_nonempty (s t : string) :
  t <> EmptyString -> str_or_else s t <> EmptyString.
Proof.
  intros Ht. unfold str_or_else.
  destruct (String.eqb_spec s EmptyString) as [_|Hs]; assumption.
Qed.

(** ** The upload loop *)

Lemma post_succeeds_shape (r : FetchResult) :
  post_succeeds r = true ->
  exists b, r = FetchResolved (mkResponse true (JsonResolved (Some b))).
Proof.
  unfold post_succeeds, post_data.
  destruct r as [e | [[] [e | [b|]]]]; try discriminate.
  intros _. now exists b.
Qed.

(** One accepted answer: the name is pushed and the loop goes on. *)
Lemma upload_loop_step (env : Env) (file : File) (rest : list File)
      (acc : list JsVal) (w : World) (b : Body) :
  net env (clock w) = FetchResolved (mkResponse true (JsonResolved (Some b))) ->
  upload_loop env (file :: rest) acc w
  = upload_loop env rest (acc ++ [body_fileName b])
      (mkWorld (state w) (trace w ++ [EvFetch (upload_request env file)]) (S (clock w))).
Proof.
  intros Hnet. simpl. unfold bind at 1, fetch. rewrite Hnet. reflexivity.
Qed.

(** Any other answer: the loop throws right after this request. *)
Lemma upload_loop_abort (env : Env) (file : File) (rest : list File)
      (acc : list JsVal) (w : World) :
  post_succeeds (net env (clock w)) = false ->
  exists e,
    upload_loop env (file :: rest) acc w
    = (Throw e,
       mkWorld (state w) (trace w ++ [EvFetch (upload_request env file)]) (S (clock w))).
Proof.
  intros Hfail. simpl. unfold bind at 1, fetch.
  destruct (net env (clock w)) as [e | [[] [e | [b|]]]];
    try discriminate Hfail; eexists; reflexivity.
Qed.

Lemma upload_loop_all_succeed (env : Env) (fs : list File) :
  forall (acc : list JsVal) (w : World),
  (forall i, i < List.length fs -> post_succeeds (net env (clock w + i)) = true) ->
  upload_loop env fs acc w
  = (Normal (acc ++ confirmed_names env (clock w) (List.length fs)),
     mkWorld (state w) (trace w ++ upload_events env fs) (clock w + List.length fs)).
Proof.
  induction fs as [|file rest IH]; intros acc w Hok.
  - simpl. unfold ret, confirmed_names. simpl.
    now rewrite !app_nil_r, Nat.add_0_r, world_eta.
  - destruct (post_succeeds_shape (net env (clock w))) as [b Hb].
    { rewrite <- (Nat.add_0_r (clock w)). apply Hok. simpl. lia. }
    rewrite (upload_loop_step env file rest acc w b Hb).
    rewrite IH.
    + simpl. unfold confirmed_names. simpl. unfold confirmed_name at 2.
      rewrite Hb. simpl.
      rewrite <- !app_assoc. simpl. now rewrite Nat.add_succ_r.
    + intros i Hi. simpl. rewrite <- Nat.add_succ_r. apply Hok. simpl. lia.
Qed.

Lemma upload_loop_first_failure (env : Env) (fs : list File) :
  forall (j : nat) (acc : list JsVal) (w : World),
  j < List.length fs ->
  (forall i, i < j -> post_succeeds (net env (clock w + i)) = true) ->
  post_succeeds (net env (clock w + j)) = false ->
  exists e,
    upload_loop env fs acc w
    = (Throw e,
       mkWorld (state w) (trace w ++ upload_events env (firstn (S j) fs)) (clock w + S j)).
Proof.
  induction fs as [|file rest IH]; intros j acc w Hj Hok Hfail; simpl in Hj; [lia|].
  destruct j as [|j].
  - rewrite Nat.add_0_r in Hfail.
    destruct (upload_loop_abort env file rest acc w Hfail) as [e He].
    exists e. rewrite He. simpl. now rewrite Nat.add_1_r.
  - destruct (post_succeeds_shape (net env (clock w))) as [b Hb].
    { rewrite <- (Nat.add_0_r (clock w)). apply Hok. lia. }
    rewrite (upload_loop_step env file rest acc w b Hb).
    destruct (IH j (acc ++ [body_fileName b])
                (mkWorld (state w) (trace w ++ [EvFetch (upload_request env file)])
                         (S (clock w)))) as [e He].
    + lia.
    + intros i Hi. simpl. rewrite <- Nat.add_succ_r. apply Hok. lia.
    + simpl. rewrite <- Nat.add_succ_r. exact Hfail.
    + exists e. rewrite He. simpl. rewrite <- !app_assoc. simpl.
      now rewrite !Nat.add_succ_r.
Qed.

(** ** The list refresh *)

(** [fetchUploadedFiles] never throws and sends exactly one request; besides
    [loading], which ends false, it touches only [uploadedFiles] (on an
    accepted answer) or [error] (otherwise, with a console message). *)
Lemma fetchUploadedFiles_frame (env : Env) (w : World) :
  exists (listed : list JsVal) (err : option string) (extra : list Event),
    fetchUploadedFiles env w
    = (Normal tt,
       mkWorld (mkState (files (state w)) listed (uploading (state w)) false err
                        (success (state w)) (successMessage (state w))
                        (deleteConfirmOpen (state w)) (fileToDelete (state w)))
               (trace w ++ EvFetch (list_request env) :: extra)
               (S (clock w)))
    /\ forallb is_refresh_event extra = true
    /\ (forall b, net env (clock w) = FetchResolved (mkResponse true (JsonResolved (Some b))) ->
                  listed = files_or_empty (body_files b)
                  /\ err = error (state w) /\ extra = [])
    /\ (post_succeeds (net env (clock w)) = false ->
        listed = uploadedFiles (state w) /\ exists e, extra = [EvConsoleError "获取文件列表出错:" e]).
Proof.
  unfold fetchUploadedFiles, try_finally, try_catch, bind, fetch, setLoading, modify.
  simpl.
  destruct (net env (clock w)) as [e | [[] [e | [b|]]]]; simpl;
    do 3 eexists; (split; [try rewrite <- app_assoc; reflexivity|]).
  all: split; [reflexivity|].
  all: split; [intros b' Hb'; try discriminate Hb' | intros Hp; try discriminate Hp].
  all: try (inversion Hb'; subst; repeat split).
  all: split; [reflexivity | eexists; reflexivity].
Qed.

(** ** Upload: the whole flow *)

Lemma upload_success_calls_app (tr1 tr2 : list Event) :
  upload_success_calls (tr1 ++ tr2) = upload_success_calls tr1 ++ upload_success_calls tr2.
Proof.
  induction tr1 as [|ev tr1 IH]; simpl; [reflexivity|].
  destruct ev; simpl; now rewrite IH.
Qed.

Lemma upload_success_calls_uploads (env : Env) (fs : list File) :
  upload_success_calls (upload_events env fs) = [].
Proof. induction fs as [|file rest IH]; simpl; [reflexivity | exact IH]. Qed.

Lemma upload_success_calls_refresh (tr : list Event) :
  forallb is_refresh_event tr = true -> upload_success_calls tr = [].
Proof.
  induction tr as [|ev tr IH]; simpl; [reflexivity|].
  intros H. apply andb_true_iff in H as [Hev Htr].
  destruct ev; simpl in *; try discriminate; now apply IH.
Qed.

Lemma length_confirmed_names (env : Env) (start n : nat) :
  List.length (confirmed_names env start n) = n.
Proof. unfold confirmed_names. now rewrite length_map, length_seq. Qed.

(** The name at position [i] of the callback's list is the one the server
    confirmed in its answer to the [i]-th POST. *)
Lemma nth_confirmed_names (env : Env) (start n i : nat) :
  i < n ->
  nth_error (confirmed_names env start n) i = Some (confirmed_name (net env (start + i))).
Proof.
  intros Hi. unfold confirmed_names.
  rewrite nth_error_map, nth_error_nth' with (d := 0) by (now rewrite length_seq).
  simpl. now rewrite seq_nth.
Qed.

(** C1: when the model lookup passes and every POST of the batch is
    accepted, [handleStartUpload] ends with [files] empty, with
    [uploadedFiles] equal to the list in the answer to the GET that follows
    the uploads, and with [onUploadSuccess], when supplied, called exactly
    once, on the [N] confirmed names in submission order and the parsed
    model info ([null] when none is stored). *)
Theorem upload_all_succeed (env : Env) (snap : State) (w : World) (info : JsVal) :
  truthy_str (localStorage env "selectedModelId") = true ->
  stored_model_info env = Some info ->
  (forall i, i < List.length (files snap) ->
             post_succeeds (net env (clock w + i)) = true) ->
  let n := List.length (files snap) in
  let names := confirmed_names env (clock w) n in
  let w' := exec (handleStartUpload env snap) w in
  completion (handleStartUpload env snap) w = Normal tt
  /\ files (state w') = []
  /\ (forall b, net env (clock w + n) = FetchResolved (mkResponse true (JsonResolved (Some b))) ->
                uploadedFiles (state w') = files_or_empty (body_files b))
  /\ upload_success_calls (trace w')
     = upload_success_calls (trace w)
       ++ match onUploadSuccess env with
          | Some _ => [(names, info)]
          | None => []
          end
  /\ List.length names = n
  /\ (exists rest, trace w' = trace w ++ upload_events env (files snap)
                                       ++ EvFetch (list_request env) :: rest)
  /\ uploading (state w') = false
  /\ success (state w') = true
  /\ successMessage (state w') = uploaded_count n.
Proof.
  intros Hid Hinfo Hok n names w'. subst w'.
  unfold exec, completion, handleStartUpload, setUploading, setError.
  rewrite !bind_modify. simpl.
  set (w1 := mkWorld _ (trace w) (clock w)).
  destruct (fetchUploadedFiles_frame env
              (mkWorld (with_files [] (with_success true
                         (with_successMessage (uploaded_count n) (state w1))))
                       (trace w ++ upload_events env (files snap))
                       (clock w + n)))
    as (listed & err & extra & Hrun & Hextra & Hlisted & _).
  simpl in Hrun, Hlisted.
  assert (Hloop : upload_loop env (files snap) [] w1
                  = (Normal names,
                     mkWorld (state w1) (trace w ++ upload_events env (files snap))
                             (clock w + n))).
  { rewrite upload_loop_all_succeed by exact Hok. reflexivity. }
  assert (Hprefix :
             (selectedModelInfo <- read_model_info env ;;
              uploadedFileNames <- upload_loop env (files snap) [] ;;
              setSuccessMessage (uploaded_count (List.length (files snap))) ;;
              setSuccess true ;;
              setFiles (fun _ => []) ;;
              fetchUploadedFiles env ;;
              match onUploadSuccess env with
              | Some cb =>
                  call (EvUploadSuccess uploadedFileNames selectedModelInfo)
                       (cb uploadedFileNames selectedModelInfo)
              | None => ret tt
              end) w1
             = match onUploadSuccess env with
               | Some cb => call (EvUploadSuccess names info) (cb names info)
               | None => ret tt
               end
                 (mkWorld (mkState [] listed true false err true (uploaded_count n)
                                   (deleteConfirmOpen (state w)) (fileToDelete (state w)))
                          ((trace w ++ upload_events env (files snap))
                             ++ EvFetch (list_request env) :: extra)
                          (S (clock w + n)))).
  { erewrite bind_normal by (apply read_model_info_accepted; eassumption).
    erewrite bind_normal by exact Hloop.
    unfold setSuccessMessage, setSuccess, setFiles. rewrite !bind_modify.
    erewrite bind_normal by exact Hrun. reflexivity. }
  unfold try_finally, try_catch. rewrite Hprefix. clear Hprefix Hloop Hrun.
  destruct (onUploadSuccess env) as [cb|]; [destruct (cb names info)|]; simpl.
  all: rewrite ?upload_success_calls_app; simpl.
  all: rewrite ?upload_success_calls_app, ?upload_success_calls_uploads; simpl.
  all: rewrite (upload_success_calls_refresh extra Hextra); simpl.
  all: repeat split;
    try (intros b Hb; destruct (Hlisted b Hb) as (-> & _); reflexivity);
    try (now rewrite ?app_nil_r);
    try apply length_confirmed_names.
  all: eexists; rewrite <- ?app_assoc; simpl; reflexivity.
Qed.

Lemma upload_all_succeed_witness :
  let env := Demo.env_with Demo.storage Demo.friendly_net in
  let w := Demo.world_of (Demo.staged [Demo.notes; Demo.draft]) in
  let w' := exec (handleStartUpload env (state w)) w in
  files (state w') = []
  /\ uploadedFiles (state w') = [Demo.stored_notes]
  /\ upload_success_calls (trace w')
     = [([JStr "notes.md"; JStr "draft.md"], JArr [JNum "1"; JNum "2"])].
Proof.
  intros env w w'.
  assert (Hok : forall i, i < List.length (files (state w)) ->
                          post_succeeds (net env (clock w + i)) = true).
  { intros i Hi. destruct i as [|[|i]]; [reflexivity | reflexivity | simpl in Hi; lia]. }
  destruct (upload_all_succeed env (state w) w (JArr [JNum "1"; JNum "2"])
              eq_refl eq_refl Hok)
    as (_ & Hfiles & Hlisted & Hcalls & _).
  split; [exact Hfiles|]. split; [|exact Hcalls].
  exact (Hlisted _ eq_refl).
Defined.

(** C2: when the model lookup passes, the first [k-1] POSTs are accepted and
    the [k]-th is not (a non-2xx status, a rejected fetch or an unreadable
    body), exactly the requests for the first [k] files are sent, in order,
    and none for the files after them; [files] and every other piece of
    state are as before, except that [uploading] ends false and [error]
    holds one non-empty message; no callback is called. *)
Theorem upload_kth_fails (env : Env) (snap : State) (w : World) (info : JsVal) (k : nat) :
  truthy_str (localStorage env "selectedModelId") = true ->
  stored_model_info env = Some info ->
  1 <= k <= List.length (files snap) ->
  (forall i, i < k - 1 -> post_succeeds (net env (clock w + i)) = true) ->
  post_succeeds (net env (clock w + (k - 1))) = false ->
  let w' := exec (handleStartUpload env snap) w in
  completion (handleStartUpload env snap) w = Normal tt
  /\ trace w' = trace w ++ upload_events env (firstn k (files snap))
  /\ clock w' = clock w + k
  /\ uploading (state w') = false
  /\ files (state w') = files (state w)
  /\ exists msg,
       msg <> EmptyString
       /\ state w' = mkState (files (state w)) (uploadedFiles (state w)) false
                             (loading (state w)) (Some msg) (success (state w))
                             (successMessage (state w)) (deleteConfirmOpen (state w))
                             (fileToDelete (state w)).
Proof.
  intros Hid Hinfo Hk Hok Hfail w'. subst w'.
  unfold exec, completion, handleStartUpload, setUploading, setError.
  rewrite !bind_modify. simpl.
  set (w1 := mkWorld _ (trace w) (clock w)).
  destruct (upload_loop_first_failure env (files snap) (k - 1) [] w1) as [e He].
  { lia. }
  { exact Hok. }
  { exact Hfail. }
  replace (S (k - 1)) with k in He by lia.
  unfold try_finally, try_catch.
  erewrite bind_normal by (apply read_model_info_accepted; eassumption).
  erewrite bind_throw by exact He.
  simpl. repeat split.
  exists (str_or_else (message e) upload_failed). split; [|reflexivity].
  apply str_or_else_nonempty. discriminate.
Qed.

Lemma upload_kth_fails_witness :
  let env := Demo.env_with Demo.storage Demo.flaky_net in
  let w := Demo.world_of (Demo.staged [Demo.notes; Demo.draft; Demo.notes]) in
  let w' := exec (handleStartUpload env (state w)) w in
  trace w' = [EvFetch (upload_request env Demo.notes); EvFetch (upload_request env Demo.draft)]
  /\ uploading (state w') = false
  /\ files (state w') = [Demo.notes; Demo.draft; Demo.notes].
Proof.
  intros env w w'.
  assert (Hk : 1 <= 2 <= List.length (files (state w))) by (simpl; lia).
  assert (Hok : forall i, i < 2 - 1 -> post_succeeds (net env (clock w + i)) = true).
  { intros i Hi. destruct i as [|i]; [reflexivity | lia]. }
  destruct (upload_kth_fails env (state w) w (JArr [JNum "1"; JNum "2"]) 2
              eq_refl eq_refl Hk Hok eq_refl)
    as (_ & Htrace & _ & Hup & Hfiles & _).
  split; [exact Htrace|]. split; [exact Hup | exact Hfiles].
Defined.

(** ** Delete *)

Lemma handleDeleteFile_guard (env : Env) (snap : State) (w : World) :
  truthy_str (fileToDelete snap) = false ->
  handleDeleteFile env snap w = (Normal tt, w).
Proof.
  intros H. unfold handleDeleteFile.
  destruct (fileToDelete snap) as [target|]; [|reflexivity].
  now rewrite H.
Qed.

(** C9: with no deletion target staged ([fileToDelete] is [null]),
    confirming the delete does nothing at all: no request, no event, and the
    whole state as before. *)
Theorem confirm_without_target (env : Env) (snap : State) (w : World) :
  fileToDelete snap = None ->
  handleDeleteFile env snap w = (Normal tt, w).
Proof. intros H. apply handleDeleteFile_guard. now rewrite H. Qed.

Lemma confirm_without_target_witness :
  handleDeleteFile (Demo.env_with Demo.storage Demo.delete_net) initial_state initial_world
  = (Normal tt, initial_world).
Proof.
  apply (confirm_without_target (Demo.env_with Demo.storage Demo.delete_net)
           initial_state initial_world).
  reflexivity.
Defined.

(** The guard also leaves on the empty string. *)
Lemma confirm_with_empty_target (env : Env) (snap : State) (w : World) :
  fileToDelete snap = Some EmptyString ->
  handleDeleteFile env snap w = (Normal tt, w).
Proof. intros H. apply handleDeleteFile_guard. now rewrite H. Qed.

Lemma handleDeleteFile_refused (env : Env) (snap : State) (w : World) (target : string) :
  fileToDelete snap = Some target ->
  target <> EmptyString ->
  delete_accepted (net env (clock w)) = false ->
  exists e,
    handleDeleteFile env snap w
    = (Normal tt,
       mkWorld (mkState (files (state w)) (uploadedFiles (state w)) (uploading (state w))
                        false (Some (message e)) (success (state w))
                        (successMessage (state w)) false None)
               (trace w ++ [EvFetch (delete_request env target);
                            EvConsoleError "删除文件出错:" e])
               (S (clock w))).
Proof.
  intros Hsnap Hne Hrefused. unfold handleDeleteFile. rewrite Hsnap. simpl.
  destruct (String.eqb_spec target EmptyString) as [E|_]; [contradiction|]. simpl.
  unfold try_finally, try_catch, bind, fetch, setLoading, closeDeleteConfirm,
    setDeleteConfirmOpen, setFileToDelete, modify. simpl.
  destruct (net env (clock w)) as [e | [[] [e | [b|]]]]; simpl in *;
    try discriminate Hrefused;
    eexists; (apply outcome_eq; [rewrite <- app_assoc; reflexivity | reflexivity ..]).
Qed.

Lemma handleDeleteFile_accepted (env : Env) (snap : State) (w : World) (target : string) :
  fileToDelete snap = Some target ->
  target <> EmptyString ->
  delete_accepted (net env (clock w)) = true ->
  exists (st' : State) (refresh : list Event),
    handleDeleteFile env snap w
    = (Normal tt,
       mkWorld st'
               (trace w ++ EvFetch (delete_request env target)
                        :: refresh ++ after_refresh env target)
               (S (S (clock w))))
    /\ forallb is_refresh_event refresh = true
    /\ loading st' = false
    /\ fileToDelete st' = None
    /\ deleteConfirmOpen st' = false
    /\ files st' = files (state w).
Proof.
  intros Hsnap Hne Hacc. unfold handleDeleteFile. rewrite Hsnap. simpl.
  destruct (String.eqb_spec target EmptyString) as [E|_]; [contradiction|]. simpl.
  destruct (net env (clock w)) as [e | [[] body]] eqn:Hnet; simpl in Hacc;
    try discriminate Hacc.
  set (w1 := mkWorld (with_fileToDelete None (with_deleteConfirmOpen false
                        (with_loading true (state w))))
                     (trace w ++ [EvFetch (delete_request env target)]) (S (clock w))).
  destruct (fetchUploadedFiles_frame env w1)
    as (listed & err & extra & Hrun & Hextra & _).
  exists (match onFileDeleted env with
          | Some cb =>
              match cb target with
              | CallReturns =>
                  mkState (files (state w)) listed (uploading (state w)) false err true
                          (deleted_file target) false None
              | CallThrows e =>
                  mkState (files (state w)) listed (uploading (state w)) false
                          (Some (message e)) (success (state w))
                          (successMessage (state w)) false None
              end
          | None =>
              mkState (files (state w)) listed (uploading (state w)) false err true
                      (deleted_file target) false None
          end), (EvFetch (list_request env) :: extra).
  split.
  - unfold try_finally, try_catch.
    unfold setLoading. rewrite bind_modify.
    erewrite (bind_normal closeDeleteConfirm) by reflexivity.
    erewrite bind_normal by (apply fetch_resolved; exact Hnet).
    simpl. erewrite (bind_normal (ret tt)) by reflexivity.
    fold w1. erewrite bind_normal by exact Hrun.
    unfold after_refresh.
    destruct (onFileDeleted env) as [cb|]; [destruct (cb target)|]; simpl;
      (apply outcome_eq; [rewrite <- !app_assoc; reflexivity | reflexivity ..]).
  - split; [exact Hextra|].
    destruct (onFileDeleted env) as [cb|]; [destruct (cb target)|]; repeat split.
Qed.

Lemma file_deleted_calls_app (tr1 tr2 : list Event) :
  file_deleted_calls (tr1 ++ tr2) = file_deleted_calls tr1 ++ file_deleted_calls tr2.
Proof.
  induction tr1 as [|ev tr1 IH]; simpl; [reflexivity|].
  destruct ev; simpl; now rewrite IH.
Qed.

Lemma file_deleted_calls_refresh (tr : list Event) :
  forallb is_refresh_event tr = true -> file_deleted_calls tr = [].
Proof.
  induction tr as [|ev tr IH]; simpl; [reflexivity|].
  intros H. apply andb_true_iff in H as [Hev Htr].
  destruct ev; simpl in *; try discriminate; now apply IH.
Qed.

Lemma file_deleted_calls_after_refresh (env : Env) (target : string) :
  file_deleted_calls (after_refresh env target)
  = match onFileDeleted env with
    | Some _ => [target]
    | None => []
    end.
Proof.
  unfold after_refresh.
  destruct (onFileDeleted env) as [cb|]; [destruct (cb target)|]; reflexivity.
Qed.

Lemma reload_not_in_refresh (tr : list Event) :
  forallb is_refresh_event tr = true -> ~ In EvReload tr.
Proof.
  intros H Hin. rewrite forallb_forall in H. specialize (H _ Hin). discriminate H.
Qed.

(** Cutting a list at an element that its first part does not contain. *)
Lemma cut_after_prefix {A} (a : A) (m1 : list A) :
  forall l1 l2 m2,
  l1 ++ a :: l2 = m1 ++ m2 -> ~ In a m1 ->
  exists m, l1 = m1 ++ m /\ m ++ a :: l2 = m2.
Proof.
  induction m1 as [|x m1 IH]; intros l1 l2 m2 Heq Hnotin; simpl in *.
  - now exists l1.
  - destruct l1 as [|y l1]; simpl in Heq; inversion Heq; subst.
    + exfalso. apply Hnotin. now left.
    + destruct (IH l1 l2 m2 H1) as (m & -> & Hm).
      * intros Hin. apply Hnotin. now right.
      * now exists m.
Qed.

(** C6, as the code has it: for a staged name that is not empty and has no
    lone surrogate (on which [encodeURIComponent] would throw), confirming
    the delete sends, as its first effect, a DELETE to
    [/api/projects/{projectId}/files?fileName=] followed by a text of
    URL-safe characters that percent-decodes to the name, and is the name
    itself when the name needs no escape. When that request gets a 2xx
    answer, the list is refreshed, then [onFileDeleted], when supplied, is
    called exactly once, with that name, and only after it comes the
    reload. *)
Theorem confirm_delete_request_and_callback
        (env : Env) (snap : State) (w : World) (target : string) :
  fileToDelete snap = Some target ->
  target <> EmptyString ->
  has_lone_surrogate target = false ->
  let w' := exec (handleDeleteFile env snap) w in
  (exists query rest,
      percent_decode query = Some target
      /\ string_forall is_url_safe query = true
      /\ (string_forall is_unreserved target = true -> query = target)
      /\ trace w'
         = trace w
           ++ EvFetch (mkRequest DELETE
                         ("/api/projects/" ++ projectId env ++ "/files?fileName=" ++ query)
                         None)
           :: rest)
  /\ (delete_accepted (net env (clock w)) = true ->
      (exists refresh,
          forallb is_refresh_event refresh = true
          /\ trace w' = trace w ++ EvFetch (delete_request env target)
                                :: refresh ++ after_refresh env target)
      /\ file_deleted_calls (trace w')
         = file_deleted_calls (trace w)
           ++ match onFileDeleted env with
              | Some _ => [target]
              | None => []
              end
      /\ (forall added before later,
             trace w' = trace w ++ added ->
             added = before ++ EvReload :: later ->
             onFileDeleted env <> None ->
             In (EvFileDeleted target) before)).
Proof.
  intros Hsnap Hne _ w'. subst w'. unfold exec.
  assert (Hquery : forall rest,
             exists query rest',
               percent_decode query = Some target
               /\ string_forall is_url_safe query = true
               /\ (string_forall is_unreserved target = true -> query = target)
               /\ trace w ++ EvFetch (delete_request env target) :: rest
                  = trace w
                    ++ EvFetch (mkRequest DELETE
                                  ("/api/projects/" ++ projectId env
                                   ++ "/files?fileName=" ++ query) None)
                    :: rest').
  { intros rest. exists (encodeURIComponent target), rest.
    split; [apply percent_decode_encodeURIComponent|].
    split; [apply encodeURIComponent_safe|].
    split; [apply encodeURIComponent_plain | reflexivity]. }
  destruct (delete_accepted (net env (clock w))) eqn:Hacc.
  - destruct (handleDeleteFile_accepted env snap w target Hsnap Hne Hacc)
      as (st' & refresh & Hrun & Hrefresh & _).
    rewrite Hrun. simpl. split; [apply Hquery|].
    intros _. split; [|split].
    + exists refresh. split; [exact Hrefresh | reflexivity].
    + rewrite file_deleted_calls_app. simpl.
      rewrite file_deleted_calls_app, (file_deleted_calls_refresh refresh Hrefresh).
      now rewrite file_deleted_calls_after_refresh.
    + intros added before later Hadded Hcut Hcb.
      apply app_inv_head in Hadded. subst added.
      change (EvFetch (delete_request env target) :: refresh ++ after_refresh env target)
        with ((EvFetch (delete_request env target) :: refresh) ++ after_refresh env target)
        in Hcut.
      symmetry in Hcut.
      destruct (cut_after_prefix _ _ _ _ _ Hcut) as (m & -> & Hm).
      { intros [Hin|Hin]; [discriminate Hin|].
        exact (reload_not_in_refresh refresh Hrefresh Hin). }
      apply in_or_app. right.
      unfold after_refresh in Hm.
      destruct (onFileDeleted env) as [cb|]; [|now contradiction Hcb].
      destruct m as [|ev m]; simpl in Hm; inversion Hm; subst. now left.
  - destruct (handleDeleteFile_refused env snap w target Hsnap Hne Hacc) as (e & Hrun).
    rewrite Hrun. simpl. split; [apply Hquery|].
    intros Habs. discriminate Habs.
Qed.

Lemma confirm_delete_request_and_callback_witness :
  let env := Demo.env_with Demo.storage Demo.delete_net in
  let w := exec (openDeleteConfirm "my doc&1.md") initial_world in
  let w' := exec (handleDeleteFile env (state w)) w in
  requests (trace w')
  = [mkRequest DELETE "/api/projects/p1/files?fileName=my%20doc%261.md" None;
     mkRequest GET "/api/projects/p1/files" None]
  /\ (exists query rest,
         percent_decode query = Some "my doc&1.md"
         /\ trace w' = EvFetch (mkRequest DELETE
                                  ("/api/projects/p1/files?fileName=" ++ query) None)
                       :: rest)
  /\ file_deleted_calls (trace w') = ["my doc&1.md"].
Proof.
  intros env w w'.
  assert (Hne : "my doc&1.md" <> EmptyString) by discriminate.
  destruct (confirm_delete_request_and_callback env (state w) w "my doc&1.md"
              eq_refl Hne eq_refl)
    as ((query & rest & Hdecode & _ & _ & Htrace) & Hacc).
  destruct (Hacc eq_refl) as (_ & Hcalls & _).
  split; [reflexivity|]. split; [|exact Hcalls].
  exists query, rest. split; [exact Hdecode | exact Htrace].
Defined.

(** C6 as stated fails on the empty name: staged and confirmed, it sends no
    request, although the server would have accepted one. *)
Lemma empty_target_sends_nothing :
  let env := Demo.env_with Demo.storage Demo.delete_net in
  let w := exec (dispatch env (RequestDelete EmptyString)) initial_world in
  let w' := exec (dispatch env ConfirmDelete) w in
  fileToDelete (state w) = Some EmptyString
  /\ deleteConfirmOpen (state w) = true
  /\ delete_accepted (net env (clock w)) = true
  /\ requests (trace w') = []
  /\ file_deleted_calls (trace w') = []
  /\ w' = w.
Proof. vm_compute. repeat split. Qed.

(** C10: a delete attempt, that is a confirm on a staged non-empty name,
    always ends with [fileToDelete] back to [null] and [loading] false,
    whatever the answer to the request; confirming again right after it
    does nothing, so the name has to be staged again. *)
Theorem delete_attempt_cleanup (env : Env) (snap : State) (w : World) (target : string) :
  fileToDelete snap = Some target ->
  target <> EmptyString ->
  let w' := exec (handleDeleteFile env snap) w in
  completion (handleDeleteFile env snap) w = Normal tt
  /\ (exists rest, trace w' = trace w ++ EvFetch (delete_request env target) :: rest)
  /\ fileToDelete (state w') = None
  /\ loading (state w') = false
  /\ deleteConfirmOpen (state w') = false
  /\ handleDeleteFile env (state w') w' = (Normal tt, w')
  /\ (delete_accepted (net env (clock w)) = false ->
      exists msg, error (state w') = Some msg /\ success (state w') = success (state w)).
Proof.
  intros Hsnap Hne w'. subst w'. unfold exec, completion.
  destruct (delete_accepted (net env (clock w))) eqn:Hacc.
  - destruct (handleDeleteFile_accepted env snap w target Hsnap Hne Hacc)
      as (st' & refresh & Hrun & _ & Hloading & Htarget & Hopen & _).
    rewrite Hrun. simpl. repeat split; try assumption.
    + eexists; reflexivity.
    + apply handleDeleteFile_guard. now rewrite Htarget.
    + intros Habs. discriminate Habs.
  - destruct (handleDeleteFile_refused env snap w target Hsnap Hne Hacc) as (e & Hrun).
    rewrite Hrun. simpl. repeat split.
    + eexists; reflexivity.
    + intros _. exists (message e). split; reflexivity.
Qed.

Lemma delete_attempt_cleanup_witness :
  let env := Demo.env_with Demo.storage Demo.refusing_net in
  let w := exec (openDeleteConfirm "doc.md")
                (Demo.world_of (with_loading true initial_state)) in
  let w' := exec (handleDeleteFile env (state w)) w in
  fileToDelete (state w') = None
  /\ loading (state w') = false
  /\ handleDeleteFile env (state w') w' = (Normal tt, w').
Proof.
  intros env w w'.
  assert (Hne : "doc.md" <> EmptyString) by discriminate.
  destruct (delete_attempt_cleanup env (state w) w "doc.md" eq_refl Hne)
    as (_ & _ & Htarget & Hloading & _ & Hagain & _).
  split; [exact Htarget|]. split; [exact Hloading | exact Hagain].
Defined.

(** * Further properties *)

(** ** Traces *)

Lemma requests_app (tr1 tr2 : list Event) :
  requests (tr1 ++ tr2) = requests tr1 ++ requests tr2.
Proof.
  induction tr1 as [|ev tr1 IH]; simpl; [reflexivity|].
  destruct ev; simpl; now rewrite IH.
Qed.

Lemma uploads_in_app (tr1 tr2 : list Event) :
  uploads_in (tr1 ++ tr2) = uploads_in tr1 ++ uploads_in tr2.
Proof.
  induction tr1 as [|ev tr1 IH]; simpl; [reflexivity|].
  destruct ev as [[[] u [file|]]| | | |]; simpl; now rewrite IH.
Qed.

Lemma reloads_app (tr1 tr2 : list Event) :
  reloads (tr1 ++ tr2) = reloads tr1 + reloads tr2.
Proof.
  induction tr1 as [|ev tr1 IH]; simpl; [reflexivity|].
  destruct ev; simpl; now rewrite IH.
Qed.

Lemma uploads_in_upload_events (env : Env) (fs : list File) :
  uploads_in (upload_events env fs) = fs.
Proof. induction fs as [|file rest IH]; simpl; [reflexivity | now rewrite IH]. Qed.

Lemma requests_upload_events (env : Env) (fs : list File) :
  requests (upload_events env fs) = map (upload_request env) fs.
Proof. induction fs as [|file rest IH]; simpl; [reflexivity | now rewrite IH]. Qed.

Lemma reloads_upload_events (env : Env) (fs : list File) :
  reloads (upload_events env fs) = 0.
Proof. induction fs as [|file rest IH]; simpl; [reflexivity | exact IH]. Qed.

Lemma file_deleted_calls_upload_events (env : Env) (fs : list File) :
  file_deleted_calls (upload_events env fs) = [].
Proof. induction fs as [|file rest IH]; simpl; [reflexivity | exact IH]. Qed.

(** ** The list refresh, in full *)

(** The refresh by cases on the answer: accepted, the list is replaced and
    nothing else moves; otherwise the list is kept, the error is logged and
    its message stored. *)
Lemma fetchUploadedFiles_outcome (env : Env) (w : World) :
  exists (listed : list JsVal) (err : option string) (extra : list Event),
    fetchUploadedFiles env w
    = (Normal tt,
       mkWorld (mkState (files (state w)) listed (uploading (state w)) false err
                        (success (state w)) (successMessage (state w))
                        (deleteConfirmOpen (state w)) (fileToDelete (state w)))
               (trace w ++ EvFetch (list_request env) :: extra)
               (S (clock w)))
    /\ ((exists b, net env (clock w) = FetchResolved (mkResponse true (JsonResolved (Some b)))
                   /\ listed = files_or_empty (body_files b)
                   /\ err = error (state w) /\ extra = [])
        \/ (post_succeeds (net env (clock w)) = false
            /\ listed = uploadedFiles (state w)
            /\ exists e, err = Some (message e)
                         /\ extra = [EvConsoleError "获取文件列表出错:" e])).
Proof.
  unfold fetchUploadedFiles, try_finally, try_catch, bind, fetch, setLoading, modify.
  simpl.
  destruct (net env (clock w)) as [e | [[] [e | [b|]]]]; simpl;
    do 3 eexists; (split; [try rewrite <- app_assoc; reflexivity|]).
  all: try (right; split; [reflexivity|]; split; [reflexivity|];
            eexists; split; cycle 1; reflexivity).
  left. exists b. repeat split.
Qed.

(** X1: whatever the server answers, [fetchUploadedFiles] completes without
    throwing, sends exactly one request, the GET of the project's file list,
    and ends with [loading] false; it uploads nothing, calls no callback,
    reloads nothing and leaves the staged files, the upload flag, the
    success notification and the delete dialog as they were. *)
Theorem fetchUploadedFiles_always_settles (env : Env) (w : World) :
  let w' := exec (fetchUploadedFiles env) w in
  completion (fetchUploadedFiles env) w = Normal tt
  /\ loading (state w') = false
  /\ requests (trace w') = requests (trace w) ++ [mkRequest GET (files_url env) None]
  /\ clock w' = S (clock w)
  /\ uploads_in (trace w') = uploads_in (trace w)
  /\ upload_success_calls (trace w') = upload_success_calls (trace w)
  /\ file_deleted_calls (trace w') = file_deleted_calls (trace w)
  /\ reloads (trace w') = reloads (trace w)
  /\ files (state w') = files (state w)
  /\ uploading (state w') = uploading (state w)
  /\ success (state w') = success (state w)
  /\ successMessage (state w') = successMessage (state w)
  /\ deleteConfirmOpen (state w') = deleteConfirmOpen (state w)
  /\ fileToDelete (state w') = fileToDelete (state w).
Proof.
  intros w'. subst w'. unfold exec, completion.
  destruct (fetchUploadedFiles_outcome env w) as (listed & err & extra & Hrun & Hcases).
  rewrite Hrun. simpl.
  rewrite requests_app, uploads_in_app, upload_success_calls_app,
    file_deleted_calls_app, reloads_app. simpl.
  destruct Hcases as [(b & _ & _ & _ & ->) | (_ & _ & e & _ & ->)]; simpl;
    rewrite ?app_nil_r, ?Nat.add_0_r; repeat split.
Qed.

(** X2: on a 2xx answer with a readable body the refresh replaces
    [uploadedFiles] by the [files] of the body, by the empty list when the
    body has none; it logs nothing and leaves [error] as it was, so an
    error shown before the refresh stays shown. *)
Theorem fetchUploadedFiles_accepted (env : Env) (w : World) (b : Body) :
  net env (clock w) = FetchResolved (mkResponse true (JsonResolved (Some b))) ->
  let w' := exec (fetchUploadedFiles env) w in
  uploadedFiles (state w') = files_or_empty (body_files b)
  /\ (body_files b = None -> uploadedFiles (state w') = [])
  /\ error (state w') = error (state w)
  /\ trace w' = trace w ++ [EvFetch (list_request env)].
Proof.
  intros Hnet w'. subst w'. unfold exec.
  destruct (fetchUploadedFiles_outcome env w) as (listed & err & extra & Hrun & Hcases).
  rewrite Hrun. simpl.
  destruct Hcases as [(b' & Hb' & -> & -> & ->) | (Hfail & _)].
  - rewrite Hnet in Hb'. inversion Hb'; subst b'. repeat split.
    intros Hnone. now rewrite Hnone.
  - rewrite Hnet in Hfail. discriminate Hfail.
Qed.

Lemma fetchUploadedFiles_accepted_witness :
  let env := Demo.env_with Demo.storage (fun _ => Demo.created "x.md") in
  let w := Demo.world_of (with_error (Some "old")
                            (with_uploadedFiles [Demo.stored_notes] initial_state)) in
  uploadedFiles (state (exec (fetchUploadedFiles env) w)) = []
  /\ error (state (exec (fetchUploadedFiles env) w)) = Some "old".
Proof.
  intros env w.
  destruct (fetchUploadedFiles_accepted env w _ eq_refl) as (_ & Hnone & Herr & _).
  split; [exact (Hnone eq_refl) | exact Herr].
Defined.

(** X3: when the refresh is refused, [uploadedFiles] keeps its previous
    content and [error] takes the message of the failure: the message of
    the rejection when [fetch] rejects, the server's [error] text when a
    non-2xx body carries a non-empty one, and the fallback text when the
    body carries none. *)
Theorem fetchUploadedFiles_refused (env : Env) (w : World) :
  post_succeeds (net env (clock w)) = false ->
  let w' := exec (fetchUploadedFiles env) w in
  uploadedFiles (state w') = uploadedFiles (state w)
  /\ (exists e, error (state w') = Some (message e)
                /\ trace w' = trace w ++ [EvFetch (list_request env);
                                          EvConsoleError "获取文件列表出错:" e])
  /\ (forall e, net env (clock w) = FetchRejected e ->
                error (state w') = Some (message e))
  /\ (forall b text,
         net env (clock w) = FetchResolved (mkResponse false (JsonResolved (Some b))) ->
         body_error b = JStr text -> text <> EmptyString ->
         error (state w') = Some text)
  /\ (forall b,
         net env (clock w) = FetchResolved (mkResponse false (JsonResolved (Some b))) ->
         truthy (body_error b) = false ->
         error (state w') = Some "获取文件列表失败").
Proof.
  intros Hfail w'. subst w'. unfold exec.
  split; [|split; [|split; [|split]]].
  - destruct (fetchUploadedFiles_outcome env w) as (listed & err & extra & Hrun & Hcases).
    rewrite Hrun. simpl.
    destruct Hcases as [(b & Hb & _) | (_ & -> & _)]; [|reflexivity].
    rewrite Hb in Hfail. discriminate Hfail.
  - destruct (fetchUploadedFiles_outcome env w) as (listed & err & extra & Hrun & Hcases).
    rewrite Hrun. simpl.
    destruct Hcases as [(b & Hb & _) | (_ & _ & e & -> & ->)].
    + rewrite Hb in Hfail. discriminate Hfail.
    + exists e. split; reflexivity.
  - intros e Hnet.
    unfold fetchUploadedFiles, try_finally, try_catch, bind, fetch, setLoading, modify.
    simpl. rewrite Hnet. reflexivity.
  - intros b text Hnet Htext Hne.
    unfold fetchUploadedFiles, try_finally, try_catch, bind, fetch, setLoading, modify.
    simpl. rewrite Hnet. simpl. unfold or_else. rewrite Htext. simpl.
    destruct (String.eqb_spec text EmptyString) as [E|_]; [contradiction | reflexivity].
  - intros b Hnet Hfalsy.
    unfold fetchUploadedFiles, try_finally, try_catch, bind, fetch, setLoading, modify.
    simpl. rewrite Hnet. simpl. unfold or_else. rewrite Hfalsy. reflexivity.
Qed.

Lemma fetchUploadedFiles_refused_witness :
  let env := Demo.env_with Demo.storage Demo.refusing_net in
  let w := Demo.world_of (with_uploadedFiles [Demo.stored_notes] initial_state) in
  uploadedFiles (state (exec (fetchUploadedFiles env) w)) = [Demo.stored_notes]
  /\ error (state (exec (fetchUploadedFiles env) w)) = Some "locked".
Proof.
  intros env w.
  assert (Hne : "locked" <> EmptyString) by discriminate.
  destruct (fetchUploadedFiles_refused env w eq_refl) as (Hkept & _ & _ & Htext & _).
  split; [exact Hkept|].
  exact (Htext _ "locked" eq_refl eq_refl Hne).
Defined.

(** ** Upload, over every environment *)

Lemma all_or_first_failure (p : nat -> bool) (n : nat) :
  (forall i, i < n -> p i = true)
  \/ (exists j, j < n /\ (forall i, i < j -> p i = true) /\ p j = false).
Proof.
  induction n as [|n [Hall | (j & Hj & Hbefore & Hfail)]].
  - left. intros i Hi. lia.
  - destruct (p n) eqn:Hn.
    + left. intros i Hi. destruct (Nat.eq_dec i n) as [->|Hne]; [exact Hn|].
      apply Hall. lia.
    + right. exists n. repeat split; [lia | | exact Hn].
      intros i Hi. now apply Hall.
  - right. exists j. repeat split; [lia | exact Hbefore | exact Hfail].
Qed.

(** The upload when a POST is not accepted, the [j]-th counting from zero. *)
Lemma handleStartUpload_post_failure
      (env : Env) (snap : State) (w : World) (info : JsVal) (j : nat) :
  truthy_str (localStorage env "selectedModelId") = true ->
  stored_model_info env = Some info ->
  j < List.length (files snap) ->
  (forall i, i < j -> post_succeeds (net env (clock w + i)) = true) ->
  post_succeeds (net env (clock w + j)) = false ->
  exists msg,
    msg <> EmptyString
    /\ handleStartUpload env snap w
       = (Normal tt,
          mkWorld (with_uploading false (with_error (Some msg) (state w)))
                  (trace w ++ upload_events env (firstn (S j) (files snap)))
                  (clock w + S j)).
Proof.
  intros Hid Hinfo Hj Hok Hfail.
  unfold handleStartUpload, setUploading, setError.
  rewrite !bind_modify. simpl.
  set (w1 := mkWorld _ (trace w) (clock w)).
  destruct (upload_loop_first_failure env (files snap) j [] w1 Hj Hok Hfail) as [e He].
  unfold try_finally, try_catch.
  erewrite bind_normal by (apply read_model_info_accepted; eassumption).
  erewrite bind_throw by exact He.
  exists (str_or_else (message e) upload_failed). split.
  - apply str_or_else_nonempty. discriminate.
  - reflexivity.
Qed.

(** The upload when every POST is accepted: the refresh follows, then the
    callback; a callback that throws turns into an error message. *)
Lemma handleStartUpload_all_accepted
      (env : Env) (snap : State) (w : World) (info : JsVal) :
  truthy_str (localStorage env "selectedModelId") = true ->
  stored_model_info env = Some info ->
  (forall i, i < List.length (files snap) ->
             post_succeeds (net env (clock w + i)) = true) ->
  let n := List.length (files snap) in
  let names := confirmed_names env (clock w) n in
  exists (listed : list JsVal) (err : option string) (extra : list Event),
    ((exists b, net env (clock w + n) = FetchResolved (mkResponse true (JsonResolved (Some b)))
                /\ listed = files_or_empty (body_files b)
                /\ err = None /\ extra = [])
     \/ (post_succeeds (net env (clock w + n)) = false
         /\ listed = uploadedFiles (state w)
         /\ exists e, err = Some (message e)
                      /\ extra = [EvConsoleError "获取文件列表出错:" e]))
    /\ handleStartUpload env snap w
       = (Normal tt,
          mkWorld
            (mkState [] listed false false
               match onUploadSuccess env with
               | Some cb =>
                   match cb names info with
                   | CallReturns => err
                   | CallThrows e => Some (str_or_else (message e) upload_failed)
                   end
               | None => err
               end
               true (uploaded_count n)
               (deleteConfirmOpen (state w)) (fileToDelete (state w)))
            (trace w ++ upload_events env (files snap)
                     ++ EvFetch (list_request env) :: extra
                     ++ match onUploadSuccess env with
                        | Some _ => [EvUploadSuccess names info]
                        | None => []
                        end)
            (S (clock w + n))).
Proof.
  intros Hid Hinfo Hok n names.
  unfold handleStartUpload, setUploading, setError.
  rewrite !bind_modify. simpl.
  set (w1 := mkWorld _ (trace w) (clock w)).
  destruct (fetchUploadedFiles_outcome env
              (mkWorld (with_files [] (with_success true
                         (with_successMessage (uploaded_count n) (state w1))))
                       (trace w ++ upload_events env (files snap))
                       (clock w + n)))
    as (listed & err & extra & Hrun & Hcases).
  simpl in Hrun, Hcases.
  exists listed, err, extra. split; [exact Hcases|].
  assert (Hloop : upload_loop env (files snap) [] w1
                  = (Normal names,
                     mkWorld (state w1) (trace w ++ upload_events env (files snap))
                             (clock w + n))).
  { rewrite upload_loop_all_succeed by exact Hok. reflexivity. }
  unfold try_finally, try_catch.
  erewrite bind_normal by (apply read_model_info_accepted; eassumption).
  erewrite bind_normal by exact Hloop.
  unfold setSuccessMessage, setSuccess, setFiles. rewrite !bind_modify.
  erewrite bind_normal by exact Hrun.
  clear Hrun Hloop.
  destruct (onUploadSuccess env) as [cb|]; [destruct (cb names info)|]; simpl;
    (apply outcome_eq; [rewrite <- ?app_assoc; simpl; rewrite ?app_nil_r; reflexivity
                       | reflexivity ..]).
Qed.

(** Every run of the upload is one of three: stopped at the model lookup,
    stopped at the first POST that is not accepted, or carried through. *)
Lemma handleStartUpload_cases (env : Env) (snap : State) (w : World) :
  let n := List.length (files snap) in
  (exists msg,
      msg <> EmptyString
      /\ (truthy_str (localStorage env "selectedModelId") = false
          \/ stored_model_info env = None)
      /\ handleStartUpload env snap w
         = (Normal tt,
            mkWorld (with_uploading false (with_error (Some msg) (state w)))
                    (trace w) (clock w)))
  \/ (exists j msg,
         j < n
         /\ post_succeeds (net env (clock w + j)) = false
         /\ msg <> EmptyString
         /\ handleStartUpload env snap w
            = (Normal tt,
               mkWorld (with_uploading false (with_error (Some msg) (state w)))
                       (trace w ++ upload_events env (firstn (S j) (files snap)))
                       (clock w + S j)))
  \/ (truthy_str (localStorage env "selectedModelId") = true
      /\ (forall i, i < n -> post_succeeds (net env (clock w + i)) = true)
      /\ exists info, stored_model_info env = Some info).
Proof.
  intros n.
  destruct (truthy_str (localStorage env "selectedModelId")) eqn:Hid.
  - destruct (stored_model_info env) as [info|] eqn:Hinfo.
    + destruct (all_or_first_failure (fun i => post_succeeds (net env (clock w + i))) n)
        as [Hall | (j & Hj & Hbefore & Hfail)].
      * right. right. split; [reflexivity|]. split; [exact Hall | now exists info].
      * right. left.
        destruct (handleStartUpload_post_failure env snap w info j Hid Hinfo Hj Hbefore Hfail)
          as (msg & Hmsg & Hrun).
        exists j, msg. repeat split; assumption.
    + left. exists model_info_parse_error. split; [discriminate|]. split; [now right|].
      rewrite (handleStartUpload_stops_at_lookup env snap w model_info_parse_error);
        [reflexivity | | discriminate].
      now apply read_model_info_rejected.
  - left. exists no_model_selected. split; [discriminate|]. split; [now left|].
    rewrite (handleStartUpload_stops_at_lookup env snap w no_model_selected);
      [reflexivity | | discriminate].
    now apply read_model_info_absent.
Qed.

(** X4: whatever local storage and the server do, and whether the callback
    returns or throws an error object (a value with a string message),
    [handleStartUpload] completes without throwing and ends with
    [uploading] false; the staged list is either untouched or emptied, never
    partly cleared; the files it posts are a prefix of the batch, in order;
    it reloads nothing, calls no deletion callback and leaves the delete
    dialog alone. *)
Theorem handleStartUpload_always_settles (env : Env) (snap : State) (w : World) :
  let w' := exec (handleStartUpload env snap) w in
  completion (handleStartUpload env snap) w = Normal tt
  /\ uploading (state w') = false
  /\ (files (state w') = files (state w) \/ files (state w') = [])
  /\ (exists k, k <= List.length (files snap)
                /\ uploads_in (trace w') = uploads_in (trace w) ++ firstn k (files snap))
  /\ reloads (trace w') = reloads (trace w)
  /\ file_deleted_calls (trace w') = file_deleted_calls (trace w)
  /\ deleteConfirmOpen (state w') = deleteConfirmOpen (state w)
  /\ fileToDelete (state w') = fileToDelete (state w).
Proof.
  intros w'. subst w'. unfold exec, completion.
  destruct (handleStartUpload_cases env snap w)
    as [(msg & _ & _ & Hrun) | [(j & msg & Hj & _ & _ & Hrun) | (Hid & Hall & info & Hinfo)]].
  - rewrite Hrun. simpl. repeat split; [now left|].
    exists 0. split; [lia|]. simpl. now rewrite app_nil_r.
  - rewrite Hrun. simpl.
    rewrite uploads_in_app, reloads_app, file_deleted_calls_app, uploads_in_upload_events.
    rewrite reloads_upload_events, file_deleted_calls_upload_events,
      Nat.add_0_r, app_nil_r.
    repeat split; [now left|]. exists (S j). split; [lia | reflexivity].
  - destruct (handleStartUpload_all_accepted env snap w info Hid Hinfo Hall)
      as (listed & err & extra & Hcases & Hrun).
    rewrite Hrun. simpl. unfold list_request.
    assert (Hextra : extra = [] \/ exists e, extra = [EvConsoleError "获取文件列表出错:" e]).
    { destruct Hcases as [(b & _ & _ & _ & ->) | (_ & _ & e & _ & ->)];
        [now left | right; now exists e]. }
    rewrite uploads_in_app, reloads_app, file_deleted_calls_app.
    rewrite (uploads_in_app (upload_events env (files snap))),
      (reloads_app (upload_events env (files snap))),
      (file_deleted_calls_app (upload_events env (files snap))).
    rewrite uploads_in_upload_events, reloads_upload_events,
      file_deleted_calls_upload_events.
    destruct Hextra as [-> | (e & ->)];
      (destruct (onUploadSuccess env) as [cb|]; simpl;
       rewrite ?app_nil_r, ?Nat.add_0_r; (repeat split; [now right|]);
       exists (List.length (files snap)); (split; [lia | now rewrite firstn_all])).
Qed.

(** X5: [onUploadSuccess] is never called for a partial batch. If a run of
    [handleStartUpload] calls it at all, then a model was selected, every
    POST of the batch was accepted, every staged file was posted, the
    staged list is now empty, and the call is the only one of the run. *)
Theorem upload_callback_needs_full_batch (env : Env) (snap : State) (w : World) :
  let n := List.length (files snap) in
  let w' := exec (handleStartUpload env snap) w in
  upload_success_calls (trace w') <> upload_success_calls (trace w) ->
  truthy_str (localStorage env "selectedModelId") = true
  /\ (forall i, i < n -> post_succeeds (net env (clock w + i)) = true)
  /\ uploads_in (trace w') = uploads_in (trace w) ++ files snap
  /\ files (state w') = []
  /\ exists info,
       stored_model_info env = Some info
       /\ upload_success_calls (trace w')
          = upload_success_calls (trace w) ++ [(confirmed_names env (clock w) n, info)].
Proof.
  intros n w'. subst w'. unfold exec.
  destruct (handleStartUpload_cases env snap w)
    as [(msg & _ & _ & Hrun) | [(j & msg & Hj & _ & _ & Hrun) | (Hid & Hall & info & Hinfo)]].
  - rewrite Hrun. simpl. intros Habs. now contradiction Habs.
  - rewrite Hrun. simpl. rewrite upload_success_calls_app, upload_success_calls_uploads,
      app_nil_r. intros Habs. now contradiction Habs.
  - destruct (handleStartUpload_all_accepted env snap w info Hid Hinfo Hall)
      as (listed & err & extra & Hcases & Hrun).
    rewrite Hrun. simpl. unfold list_request.
    assert (Hextra : extra = [] \/ exists e, extra = [EvConsoleError "获取文件列表出错:" e]).
    { destruct Hcases as [(b & _ & _ & _ & ->) | (_ & _ & e & _ & ->)];
        [now left | right; now exists e]. }
    rewrite upload_success_calls_app, uploads_in_app.
    rewrite (upload_success_calls_app (upload_events env (files snap))),
      (uploads_in_app (upload_events env (files snap))).
    rewrite upload_success_calls_uploads, uploads_in_upload_events.
    destruct Hextra as [-> | (e & ->)];
      (destruct (onUploadSuccess env) as [cb|]; simpl; rewrite ?app_nil_r;
       [ intros _; repeat split; try assumption; now exists info
       | intros Habs; now contradiction Habs ]).
Qed.

Lemma upload_callback_needs_full_batch_witness :
  let env := Demo.env_with Demo.storage Demo.friendly_net in
  let w := Demo.world_of (Demo.staged [Demo.notes; Demo.draft]) in
  uploads_in (trace (exec (handleStartUpload env (state w)) w)) = [Demo.notes; Demo.draft]
  /\ files (state (exec (handleStartUpload env (state w)) w)) = [].
Proof.
  intros env w.
  assert (Hcalled : upload_success_calls (trace (exec (handleStartUpload env (state w)) w))
                    <> upload_success_calls (trace w)) by (vm_compute; discriminate).
  destruct (upload_callback_needs_full_batch env (state w) w Hcalled)
    as (_ & _ & Hposted & Hfiles & _).
  split; [exact Hposted | exact Hfiles].
Defined.

(** X6: a refresh that fails after a fully accepted batch does not undo the
    upload: the staged list is emptied, the success notification is set and
    the callback is still called with the confirmed names, while
    [uploadedFiles] keeps its stale content and an error is set as well. *)
Theorem upload_survives_failed_refresh
        (env : Env) (snap : State) (w : World) (info : JsVal) :
  truthy_str (localStorage env "selectedModelId") = true ->
  stored_model_info env = Some info ->
  (forall i, i < List.length (files snap) ->
             post_succeeds (net env (clock w + i)) = true) ->
  post_succeeds (net env (clock w + List.length (files snap))) = false ->
  let n := List.length (files snap) in
  let w' := exec (handleStartUpload env snap) w in
  files (state w') = []
  /\ success (state w') = true
  /\ successMessage (state w') = uploaded_count n
  /\ uploadedFiles (state w') = uploadedFiles (state w)
  /\ (exists msg, error (state w') = Some msg)
  /\ upload_success_calls (trace w')
     = upload_success_calls (trace w)
       ++ match onUploadSuccess env with
          | Some _ => [(confirmed_names env (clock w) n, info)]
          | None => []
          end.
Proof.
  intros Hid Hinfo Hall Hget n w'. subst w'. unfold exec.
  destruct (handleStartUpload_all_accepted env snap w info Hid Hinfo Hall)
    as (listed & err & extra & Hcases & Hrun).
  rewrite Hrun. simpl.
  destruct Hcases as [(b & Hb & _) | (_ & -> & e & -> & ->)].
  { rewrite Hb in Hget. discriminate Hget. }
  rewrite upload_success_calls_app. simpl.
  rewrite upload_success_calls_app, upload_success_calls_uploads. simpl.
  destruct (onUploadSuccess env) as [cb|];
    [destruct (cb (confirmed_names env (clock w) (List.length (files snap))) info)|];
    repeat split; eexists; reflexivity.
Qed.

Lemma upload_survives_failed_refresh_witness :
  let env := Demo.env_with Demo.storage
               (fun i => match i with 0 => Demo.created "notes.md" | _ => Demo.refused "busy" end) in
  let w := Demo.world_of (with_uploadedFiles [Demo.stored_notes] (Demo.staged [Demo.notes])) in
  let w' := exec (handleStartUpload env (state w)) w in
  files (state w') = []
  /\ success (state w') = true
  /\ uploadedFiles (state w') = [Demo.stored_notes]
  /\ upload_success_calls (trace w') = [([JStr "notes.md"], JArr [JNum "1"; JNum "2"])].
Proof.
  intros env w w'.
  assert (Hok : forall i, i < List.length (files (state w)) ->
                          post_succeeds (net env (clock w + i)) = true).
  { intros i Hi. destruct i as [|i]; [reflexivity | simpl in Hi; lia]. }
  destruct (upload_survives_failed_refresh env (state w) w (JArr [JNum "1"; JNum "2"])
              eq_refl eq_refl Hok eq_refl)
    as (Hfiles & Hsucc & _ & Hkept & _ & Hcalls).
  split; [exact Hfiles|]. split; [exact Hsucc|]. split; [exact Hkept | exact Hcalls].
Defined.

(** X7: an error object (a value with a string message, such as an
    [Error]) thrown by [onUploadSuccess] is caught by the upload: the run
    completes, [error] takes the object's message (the fallback text when
    it is empty), and the upload itself is not rolled back: the staged
    list stays empty and the success notification stays set. *)
Theorem upload_callback_throws
        (env : Env) (snap : State) (w : World) (info : JsVal)
        (cb : list JsVal -> JsVal -> CallResult) (e : JsError) :
  truthy_str (localStorage env "selectedModelId") = true ->
  stored_model_info env = Some info ->
  (forall i, i < List.length (files snap) ->
             post_succeeds (net env (clock w + i)) = true) ->
  onUploadSuccess env = Some cb ->
  cb (confirmed_names env (clock w) (List.length (files snap))) info = CallThrows e ->
  let w' := exec (handleStartUpload env snap) w in
  completion (handleStartUpload env snap) w = Normal tt
  /\ error (state w') = Some (str_or_else (message e) upload_failed)
  /\ error_banner_open (state w') = true
  /\ files (state w') = []
  /\ success (state w') = true
  /\ uploading (state w') = false.
Proof.
  intros Hid Hinfo Hall Hcb Hthrow w'. subst w'. unfold exec, completion.
  destruct (handleStartUpload_all_accepted env snap w info Hid Hinfo Hall)
    as (listed & err & extra & _ & Hrun).
  rewrite Hrun, Hcb, Hthrow. simpl. repeat split.
  unfold error_banner_open. simpl.
  pose proof (str_or_else_nonempty (message e) upload_failed) as Hne.
  destruct (String.eqb_spec (str_or_else (message e) upload_failed) EmptyString) as [E|_];
    [|reflexivity].
  exfalso. apply Hne; [discriminate | exact E].
Qed.

Lemma upload_callback_throws_witness :
  let env := mkEnv "p1" (Some (fun _ _ => CallThrows (mkError EmptyString))) None
                   Demo.storage Demo.parse Demo.single_net Demo.type_error in
  let w := Demo.world_of (Demo.staged [Demo.notes]) in
  let w' := exec (handleStartUpload env (state w)) w in
  error (state w') = Some upload_failed /\ files (state w') = [] /\ success (state w') = true.
Proof.
  intros env w w'.
  assert (Hok : forall i, i < List.length (files (state w)) ->
                          post_succeeds (net env (clock w + i)) = true).
  { intros i Hi. destruct i as [|i]; [reflexivity | simpl in Hi; lia]. }
  destruct (upload_callback_throws env (state w) w (JArr [JNum "1"; JNum "2"])
              (fun _ _ => CallThrows (mkError EmptyString)) (mkError EmptyString)
              eq_refl eq_refl Hok eq_refl eq_refl)
    as (_ & Herr & _ & Hfiles & Hsucc & _).
  split; [exact Herr|]. split; [exact Hfiles | exact Hsucc].
Defined.

(** X8: a run in which every step goes through (the batch accepted, the
    refresh accepted, the callback returning or absent) ends with [error]
    null, whatever error was shown when it started, and sends exactly the
    POSTs of the batch followed by one GET. *)
Theorem upload_clean_run_clears_error
        (env : Env) (snap : State) (w : World) (info : JsVal) (b : Body) :
  truthy_str (localStorage env "selectedModelId") = true ->
  stored_model_info env = Some info ->
  (forall i, i < List.length (files snap) ->
             post_succeeds (net env (clock w + i)) = true) ->
  net env (clock w + List.length (files snap))
  = FetchResolved (mkResponse true (JsonResolved (Some b))) ->
  (forall cb, onUploadSuccess env = Some cb ->
              cb (confirmed_names env (clock w) (List.length (files snap))) info
              = CallReturns) ->
  let w' := exec (handleStartUpload env snap) w in
  error (state w') = None
  /\ error_banner_open (state w') = false
  /\ success_banner_open (state w') = true
  /\ requests (trace w')
     = requests (trace w) ++ map (upload_request env) (files snap) ++ [list_request env].
Proof.
  intros Hid Hinfo Hall Hget Hcb w'. subst w'. unfold exec.
  destruct (handleStartUpload_all_accepted env snap w info Hid Hinfo Hall)
    as (listed & err & extra & Hcases & Hrun).
  rewrite Hrun. simpl.
  destruct Hcases as [(b' & _ & _ & -> & ->) | (Hfail & _)].
  2:{ rewrite Hget in Hfail. discriminate Hfail. }
  rewrite requests_app. simpl. rewrite requests_app, requests_upload_events. simpl.
  unfold error_banner_open, success_banner_open. simpl.
  destruct (onUploadSuccess env) as [cb|] eqn:Hsupplied.
  - rewrite (Hcb cb eq_refl). simpl. repeat split.
  - simpl. repeat split.
Qed.

Lemma upload_clean_run_clears_error_witness :
  let env := Demo.env_with Demo.storage Demo.single_net in
  let w := Demo.world_of (with_error (Some "old") (Demo.staged [Demo.notes])) in
  let w' := exec (handleStartUpload env (state w)) w in
  error (state w') = None
  /\ requests (trace w') = [upload_request env Demo.notes; list_request env].
Proof.
  intros env w w'.
  assert (Hok : forall i, i < List.length (files (state w)) ->
                          post_succeeds (net env (clock w + i)) = true).
  { intros i Hi. destruct i as [|i]; [reflexivity | simpl in Hi; lia]. }
  assert (Hcb : forall cb, onUploadSuccess env = Some cb ->
                  cb (confirmed_names env (clock w) (List.length (files (state w))))
                     (JArr [JNum "1"; JNum "2"]) = CallReturns).
  { intros cb Hsome. inversion Hsome. reflexivity. }
  destruct (upload_clean_run_clears_error env (state w) w (JArr [JNum "1"; JNum "2"]) _
              eq_refl eq_refl Hok eq_refl Hcb)
    as (Herr & _ & _ & Hreq).
  split; [exact Herr | exact Hreq].
Defined.

(** ** Delete, in full *)

(** An accepted delete by cases on the refresh and on the callback. *)
Lemma handleDeleteFile_accepted_outcome
      (env : Env) (snap : State) (w : World) (target : string) :
  fileToDelete snap = Some target ->
  target <> EmptyString ->
  delete_accepted (net env (clock w)) = true ->
  exists (listed : list JsVal) (err : option string) (extra : list Event),
    ((exists b, net env (S (clock w)) = FetchResolved (mkResponse true (JsonResolved (Some b)))
                /\ listed = files_or_empty (body_files b)
                /\ err = error (state w) /\ extra = [])
     \/ (post_succeeds (net env (S (clock w))) = false
         /\ listed = uploadedFiles (state w)
         /\ exists e, err = Some (message e)
                      /\ extra = [EvConsoleError "获取文件列表出错:" e]))
    /\ handleDeleteFile env snap w
       = (Normal tt,
          mkWorld
            match onFileDeleted env with
            | Some cb =>
                match cb target with
                | CallReturns =>
                    mkState (files (state w)) listed (uploading (state w)) false err true
                            (deleted_file target) false None
                | CallThrows e =>
                    mkState (files (state w)) listed (uploading (state w)) false
                            (Some (message e)) (success (state w))
                            (successMessage (state w)) false None
                end
            | None =>
                mkState (files (state w)) listed (uploading (state w)) false err true
                        (deleted_file target) false None
            end
            (trace w ++ EvFetch (delete_request env target)
                     :: EvFetch (list_request env)
                     :: extra ++ after_refresh env target)
            (S (S (clock w)))).
Proof.
  intros Hsnap Hne Hacc. unfold handleDeleteFile. rewrite Hsnap. simpl.
  destruct (String.eqb_spec target EmptyString) as [E|_]; [contradiction|]. simpl.
  destruct (net env (clock w)) as [e | [[] body]] eqn:Hnet; simpl in Hacc;
    try discriminate Hacc.
  set (w1 := mkWorld (with_fileToDelete None (with_deleteConfirmOpen false
                        (with_loading true (state w))))
                     (trace w ++ [EvFetch (delete_request env target)]) (S (clock w))).
  destruct (fetchUploadedFiles_outcome env w1)
    as (listed & err & extra & Hrun & Hcases).
  simpl in Hcases.
  exists listed, err, extra. split; [exact Hcases|].
  unfold try_finally, try_catch.
  unfold setLoading. rewrite bind_modify.
  erewrite (bind_normal closeDeleteConfirm) by reflexivity.
  erewrite bind_normal by (apply fetch_resolved; exact Hnet).
  simpl. erewrite (bind_normal (ret tt)) by reflexivity.
  fold w1. erewrite bind_normal by exact Hrun.
  unfold after_refresh.
  destruct (onFileDeleted env) as [cb|]; [destruct (cb target)|]; simpl;
    (apply outcome_eq; [rewrite <- !app_assoc; reflexivity | reflexivity ..]).
Qed.

(** X9: a delete that the server does not accept sends that one request and
    nothing more: no list refresh, no [onFileDeleted], no reload, no
    success notification; [uploadedFiles] is kept. [error] takes the
    server's [error] text when the non-2xx body carries a non-empty one,
    the fallback text when it carries none, and the rejection's message
    when [fetch] rejects. *)
Theorem delete_refused_outcome
        (env : Env) (snap : State) (w : World) (target : string) :
  fileToDelete snap = Some target ->
  target <> EmptyString ->
  delete_accepted (net env (clock w)) = false ->
  let w' := exec (handleDeleteFile env snap) w in
  requests (trace w') = requests (trace w) ++ [delete_request env target]
  /\ file_deleted_calls (trace w') = file_deleted_calls (trace w)
  /\ reloads (trace w') = reloads (trace w)
  /\ uploadedFiles (state w') = uploadedFiles (state w)
  /\ success (state w') = success (state w)
  /\ successMessage (state w') = successMessage (state w)
  /\ (forall e, net env (clock w) = FetchRejected e ->
                error (state w') = Some (message e))
  /\ (forall b text,
         net env (clock w) = FetchResolved (mkResponse false (JsonResolved (Some b))) ->
         body_error b = JStr text -> text <> EmptyString ->
         error (state w') = Some text)
  /\ (forall b,
         net env (clock w) = FetchResolved (mkResponse false (JsonResolved (Some b))) ->
         truthy (body_error b) = false ->
         error (state w') = Some delete_failed).
Proof.
  intros Hsnap Hne Hrefused w'. subst w'. unfold exec.
  destruct (handleDeleteFile_refused env snap w target Hsnap Hne Hrefused) as (e & Hrun).
  split; [|split; [|split; [|split; [|split; [|split]]]]];
    try (rewrite Hrun; simpl;
         rewrite ?requests_app, ?file_deleted_calls_app, ?reloads_app; simpl;
         rewrite ?app_nil_r, ?Nat.add_0_r; reflexivity).
  clear Hrun e.
  unfold handleDeleteFile. rewrite Hsnap. simpl.
  destruct (String.eqb_spec target EmptyString) as [E|_]; [contradiction|]. simpl.
  unfold try_finally, try_catch, bind, fetch, setLoading, closeDeleteConfirm,
    setDeleteConfirmOpen, setFileToDelete, modify. simpl.
  split; [|split].
  - intros e Hnet. rewrite Hnet. reflexivity.
  - intros b text Hnet Htext Htne. rewrite Hnet. simpl.
    unfold or_else. rewrite Htext. simpl.
    destruct (String.eqb_spec text EmptyString) as [E|_]; [contradiction | reflexivity].
  - intros b Hnet Hfalsy. rewrite Hnet. simpl.
    unfold or_else. rewrite Hfalsy. reflexivity.
Qed.

Lemma delete_refused_outcome_witness :
  let env := Demo.env_with Demo.storage Demo.refusing_net in
  let w := exec (openDeleteConfirm "doc.md")
                (Demo.world_of (with_uploadedFiles [Demo.stored_notes] initial_state)) in
  let w' := exec (handleDeleteFile env (state w)) w in
  requests (trace w') = [delete_request env "doc.md"]
  /\ uploadedFiles (state w') = [Demo.stored_notes]
  /\ error (state w') = Some "locked".
Proof.
  intros env w w'.
  assert (Hne : "doc.md" <> EmptyString) by discriminate.
  assert (Hl : "locked" <> EmptyString) by discriminate.
  destruct (delete_refused_outcome env (state w) w "doc.md" eq_refl Hne eq_refl)
    as (Hreq & _ & _ & Hkept & _ & _ & _ & Htext & _).
  split; [exact Hreq|]. split; [exact Hkept|].
  exact (Htext _ "locked" eq_refl eq_refl Hl).
Defined.

(** X10: when the server accepts the delete but [onFileDeleted] throws an
    error object (a value with a string message, such as an [Error]), the
    page is not reloaded and no success notification is set; [error] takes
    the object's message although the file is gone on the server, and the
    deletion target is cleared all the same. *)
Theorem delete_callback_throws
        (env : Env) (snap : State) (w : World) (target : string)
        (cb : string -> CallResult) (e : JsError) :
  fileToDelete snap = Some target ->
  target <> EmptyString ->
  delete_accepted (net env (clock w)) = true ->
  onFileDeleted env = Some cb ->
  cb target = CallThrows e ->
  let w' := exec (handleDeleteFile env snap) w in
  completion (handleDeleteFile env snap) w = Normal tt
  /\ reloads (trace w') = reloads (trace w)
  /\ success (state w') = success (state w)
  /\ successMessage (state w') = successMessage (state w)
  /\ error (state w') = Some (message e)
  /\ file_deleted_calls (trace w') = file_deleted_calls (trace w) ++ [target]
  /\ fileToDelete (state w') = None
  /\ loading (state w') = false.
Proof.
  intros Hsnap Hne Hacc Hcb Hthrow w'. subst w'. unfold exec, completion.
  destruct (handleDeleteFile_accepted_outcome env snap w target Hsnap Hne Hacc)
    as (listed & err & extra & Hcases & Hrun).
  rewrite Hrun. unfold after_refresh. rewrite Hcb, Hthrow. simpl.
  rewrite reloads_app, file_deleted_calls_app. unfold list_request. simpl.
  rewrite reloads_app, file_deleted_calls_app. simpl.
  destruct Hcases as [(b & _ & _ & _ & ->) | (_ & _ & e' & _ & ->)]; simpl;
    rewrite ?Nat.add_0_r; repeat split.
Qed.

Lemma delete_callback_throws_witness :
  let env := mkEnv "p1" None (Some (fun _ => CallThrows (mkError "parent failed")))
                   Demo.storage Demo.parse Demo.delete_net Demo.type_error in
  let w := exec (openDeleteConfirm "doc.md") initial_world in
  let w' := exec (handleDeleteFile env (state w)) w in
  reloads (trace w') = 0
  /\ success (state w') = false
  /\ error (state w') = Some "parent failed".
Proof.
  intros env w w'.
  assert (Hne : "doc.md" <> EmptyString) by discriminate.
  destruct (delete_callback_throws env (state w) w "doc.md"
              (fun _ => CallThrows (mkError "parent failed")) (mkError "parent failed")
              eq_refl Hne eq_refl eq_refl eq_refl)
    as (_ & Hreload & Hsucc & _ & Herr & _).
  split; [exact Hreload|]. split; [exact Hsucc | exact Herr].
Defined.

(** X11: when the server accepts the delete and the callback returns (or
    none is supplied), the run sends exactly the DELETE and then the GET of
    the refresh, sets the success notification to the deleted name, and
    reloads the page exactly once, as its last effect. It never clears
    [error]: with an accepted refresh [error] is what it was before. *)
Theorem delete_accepted_outcome
        (env : Env) (snap : State) (w : World) (target : string) :
  fileToDelete snap = Some target ->
  target <> EmptyString ->
  delete_accepted (net env (clock w)) = true ->
  (forall cb, onFileDeleted env = Some cb -> cb target = CallReturns) ->
  let w' := exec (handleDeleteFile env snap) w in
  requests (trace w') = requests (trace w) ++ [delete_request env target; list_request env]
  /\ success (state w') = true
  /\ successMessage (state w') = deleted_file target
  /\ reloads (trace w') = S (reloads (trace w))
  /\ (exists before, trace w' = before ++ [EvReload])
  /\ (post_succeeds (net env (S (clock w))) = true -> error (state w') = error (state w)).
Proof.
  intros Hsnap Hne Hacc Hcb w'. subst w'. unfold exec.
  destruct (handleDeleteFile_accepted_outcome env snap w target Hsnap Hne Hacc)
    as (listed & err & extra & Hcases & Hrun).
  rewrite Hrun. unfold after_refresh.
  assert (Hextra : (extra = [] /\ err = error (state w))
                   \/ (post_succeeds (net env (S (clock w))) = false
                       /\ exists e, extra = [EvConsoleError "获取文件列表出错:" e])).
  { destruct Hcases as [(b & _ & _ & -> & ->) | (Hf & _ & e & _ & ->)];
      [now left | right; split; [exact Hf | now exists e]]. }
  destruct (onFileDeleted env) as [cb|] eqn:Hsupplied.
  - rewrite (Hcb cb eq_refl). simpl.
    rewrite requests_app, reloads_app. unfold list_request. simpl.
    rewrite requests_app, reloads_app. simpl.
    destruct Hextra as [(-> & ->) | (Hf & e & ->)]; simpl.
    + rewrite Nat.add_1_r. repeat split.
      exists (trace w ++ [EvFetch (delete_request env target);
                          EvFetch (mkRequest GET (files_url env) None);
                          EvFileDeleted target]).
      rewrite <- app_assoc. reflexivity.
    + rewrite Nat.add_1_r. repeat split.
      * exists (trace w ++ [EvFetch (delete_request env target);
                            EvFetch (mkRequest GET (files_url env) None);
                            EvConsoleError "获取文件列表出错:" e;
                            EvFileDeleted target]).
        rewrite <- app_assoc. reflexivity.
      * intros Habs. rewrite Hf in Habs. discriminate Habs.
  - simpl.
    rewrite requests_app, reloads_app. unfold list_request. simpl.
    rewrite requests_app, reloads_app. simpl.
    destruct Hextra as [(-> & ->) | (Hf & e & ->)]; simpl.
    + rewrite Nat.add_1_r. repeat split.
      exists (trace w ++ [EvFetch (delete_request env target);
                          EvFetch (mkRequest GET (files_url env) None)]).
      rewrite <- app_assoc. reflexivity.
    + rewrite Nat.add_1_r. repeat split.
      * exists (trace w ++ [EvFetch (delete_request env target);
                            EvFetch (mkRequest GET (files_url env) None);
                            EvConsoleError "获取文件列表出错:" e]).
        rewrite <- app_assoc. reflexivity.
      * intros Habs. rewrite Hf in Habs. discriminate Habs.
Qed.

Lemma delete_accepted_outcome_witness :
  let env := Demo.env_with Demo.storage Demo.delete_net in
  let w := exec (openDeleteConfirm "doc.md")
                (Demo.world_of (with_error (Some "old") initial_state)) in
  let w' := exec (handleDeleteFile env (state w)) w in
  requests (trace w') = [delete_request env "doc.md"; list_request env]
  /\ successMessage (state w') = deleted_file "doc.md"
  /\ reloads (trace w') = 1
  /\ error (state w') = Some "old".
Proof.
  intros env w w'.
  assert (Hne : "doc.md" <> EmptyString) by discriminate.
  assert (Hcb : forall cb, onFileDeleted env = Some cb -> cb "doc.md" = CallReturns).
  { intros cb Hsome. inversion Hsome. reflexivity. }
  destruct (delete_accepted_outcome env (state w) w "doc.md" eq_refl Hne eq_refl Hcb)
    as (Hreq & _ & Hmsg & Hreload & _ & Herr).
  split; [exact Hreq|]. split; [exact Hmsg|]. split; [exact Hreload|].
  exact (Herr eq_refl).
Defined.

(** ** Invariants of a session *)

Lemma forallb_filter_same {A} (p : A -> bool) (l : list A) :
  forallb p (filter p l) = true.
Proof.
  induction l as [|x l IH]; simpl; [reflexivity|].
  destruct (p x) eqn:Hx; simpl; [now rewrite Hx | exact IH].
Qed.

Lemma forallb_filter_from {A} (p : A -> bool) (q : A -> nat -> bool) (l : list A) :
  forall i, forallb p l = true -> forallb p (filter_from q i l) = true.
Proof.
  induction l as [|x l IH]; intros i H; simpl in *; [reflexivity|].
  apply andb_true_iff in H as [Hx Hl].
  destruct (q x i); simpl; [rewrite Hx; simpl|]; now apply IH.
Qed.

(** What [handleFileSelect] does to the state, for every snapshot. *)
Lemma handleFileSelect_state (snap : State) (candidates : list File) (w : World) :
  exists err,
    handleFileSelect snap candidates w
    = (Normal tt,
       mkWorld (with_files
                  (files (state w)
                   ++ if 0 <? List.length (uploadedFiles snap) then []
                      else filter is_md candidates)
                  (with_error err (state w)))
               (trace w) (clock w)).
Proof.
  exists (if 0 <? List.length (uploadedFiles snap) then Some single_file_limit
          else match filter (fun file => negb (is_md file)) candidates with
               | [] => error (state w)
               | rejected => Some (unsupported_format (map name rejected))
               end).
  unfold handleFileSelect.
  destruct w as [[fs ups up lo er su sm dco ftd] tr c].
  destruct (0 <? List.length (uploadedFiles snap)).
  - unfold setError, modify. simpl. now rewrite app_nil_r.
  - simpl.
    destruct (filter (fun file => negb (is_md file)) candidates) as [|r rs];
      destruct (filter is_md candidates) as [|a acc]; simpl;
      rewrite ?app_nil_r; reflexivity.
Qed.

Lemma dispatch_keeps_at_rest (env : Env) (a : Action) (w : World) :
  at_rest (state w) -> at_rest (state (snd (dispatch env a w))).
Proof.
  intros (Hup & Hload & Hmd & Hdialog).
  destruct a as [| candidates | index | | fileName | | | |]; unfold dispatch.
  - (* Mount *)
    destruct (fetchUploadedFiles_outcome env w) as (listed & err & extra & Hrun & _).
    rewrite Hrun. simpl. repeat split; try assumption; apply Hdialog.
  - (* SelectFiles *)
    destruct (handleFileSelect_state (state w) candidates w) as (err & Hrun).
    rewrite Hrun. simpl. repeat split; try assumption; try apply Hdialog.
    unfold with_files. simpl. rewrite forallb_app, Hmd. simpl.
    destruct (0 <? List.length (uploadedFiles (state w)));
      [reflexivity | apply forallb_filter_same].
  - (* RemoveFile *)
    unfold removeFile, setFiles, modify, filter_indexed. simpl.
    repeat split; try assumption; try apply Hdialog.
    now apply forallb_filter_from.
  - (* Upload *)
    unfold uploadFiles.
    destruct (List.length (files (state w)) =? 0);
      [simpl; repeat split; try assumption; apply Hdialog|].
    destruct (handleStartUpload_cases env (state w) w)
      as [(msg & _ & _ & Hrun)
         | [(j & msg & Hj & _ & _ & Hrun) | (Hid & Hall & info & Hinfo)]].
    + rewrite Hrun. simpl. repeat split; try assumption; apply Hdialog.
    + rewrite Hrun. simpl. repeat split; try assumption; apply Hdialog.
    + destruct (handleStartUpload_all_accepted env (state w) w info Hid Hinfo Hall)
        as (listed & err & extra & _ & Hrun).
      rewrite Hrun. simpl. repeat split; try assumption; apply Hdialog.
  - (* RequestDelete *)
    cbn. repeat split; try assumption; intros; discriminate.
  - (* CancelDelete *)
    cbn. repeat split; try assumption; [discriminate | intros H; now contradiction H].
  - (* ConfirmDelete *)
    assert (Hstaged : fileToDelete (state w) = None
                      \/ exists target, fileToDelete (state w) = Some target).
    { destruct (fileToDelete (state w)) as [target|]; [right; now exists target | now left]. }
    destruct Hstaged as [Htarget | (target & Htarget)].
    { rewrite handleDeleteFile_guard by (now rewrite Htarget).
      simpl. repeat split; try assumption; apply Hdialog. }
    destruct (String.eqb_spec target EmptyString) as [->|Hne].
    { rewrite handleDeleteFile_guard by (now rewrite Htarget).
      simpl. repeat split; try assumption; apply Hdialog. }
    destruct (delete_accepted (net env (clock w))) eqn:Hacc.
    + destruct (handleDeleteFile_accepted_outcome env (state w) w target Htarget Hne Hacc)
        as (listed & err & extra & _ & Hrun).
      rewrite Hrun.
      destruct (onFileDeleted env) as [cb|]; [destruct (cb target)|]; cbn;
        (repeat split; try assumption; [discriminate | intros H; now contradiction H]).
    + destruct (handleDeleteFile_refused env (state w) w target Htarget Hne Hacc)
        as (e & Hrun).
      rewrite Hrun. cbn.
      repeat split; try assumption; [discriminate | intros H; now contradiction H].
  - (* DismissError *)
    cbn. repeat split; try assumption; apply Hdialog.
  - (* DismissSuccess *)
    cbn. repeat split; try assumption; apply Hdialog.
Qed.

Lemma session_keeps_at_rest (env : Env) (actions : list Action) :
  forall w, at_rest (state w) -> at_rest (state (session env actions w)).
Proof.
  induction actions as [|a actions IH]; intros w Hw; simpl; [exact Hw|].
  apply IH. now apply dispatch_keeps_at_rest.
Qed.

Lemma reachable_at_rest (env : Env) (s : State) : reachable env s -> at_rest s.
Proof.
  intros (actions & ->). apply session_keeps_at_rest.
  repeat split; try reflexivity; simpl; [discriminate | intros H; now contradiction H].
Qed.

(** X12: when the handlers do not overlap, each action being fired after
    the handler of the previous one has finished, the component is not
    busy between two actions: in every state such a session reaches,
    whatever the server answered along the way, [uploading] and [loading]
    are both false. *)
Theorem reachable_never_busy (env : Env) (s : State) :
  reachable env s -> uploading s = false /\ loading s = false.
Proof.
  intros H. destruct (reachable_at_rest env s H) as (Hup & Hload & _).
  now split.
Qed.

Lemma reachable_never_busy_witness :
  let env := Demo.env_with Demo.storage Demo.flaky_net in
  let s := state (session env [SelectFiles [Demo.notes; Demo.draft]; Upload; Mount]
                    initial_world) in
  uploading s = false /\ loading s = false.
Proof.
  intros env s.
  apply (reachable_never_busy env s).
  exists [SelectFiles [Demo.notes; Demo.draft]; Upload; Mount]. reflexivity.
Defined.

(** X13: every file that is ever staged has a name ending in [.md]: no
    sequence of selections, removals, uploads and deletes puts another kind
    of file in [files]. *)
Theorem reachable_stages_only_markdown (env : Env) (s : State) :
  reachable env s ->
  forall file, In file (files s) -> exists stem, name file = (stem ++ ".md")%string.
Proof.
  intros H file Hin. destruct (reachable_at_rest env s H) as (_ & _ & Hmd & _).
  rewrite forallb_forall in Hmd. apply endsWith_spec. exact (Hmd file Hin).
Qed.

Lemma reachable_stages_only_markdown_witness :
  let env := Demo.env_with Demo.storage Demo.friendly_net in
  let s := state (session env [SelectFiles [Demo.photo; Demo.notes; Demo.sheet];
                               SelectFiles [Demo.draft]; RemoveFile 0] initial_world) in
  files s = [Demo.draft] /\ exists stem, name Demo.draft = (stem ++ ".md")%string.
Proof.
  intros env s. split; [reflexivity|].
  apply (reachable_stages_only_markdown env s).
  - exists [SelectFiles [Demo.photo; Demo.notes; Demo.sheet];
            SelectFiles [Demo.draft]; RemoveFile 0]. reflexivity.
  - simpl. now left.
Defined.

(** X14: when the handlers do not overlap, each action being fired after
    the handler of the previous one has finished, the delete dialog is
    open exactly when a deletion target is staged: in every state such a
    session reaches, [deleteConfirmOpen] is true if and only if
    [fileToDelete] is not null. *)
Theorem reachable_dialog_matches_target (env : Env) (s : State) :
  reachable env s ->
  (dialog_open s = true <-> fileToDelete s <> None).
Proof.
  intros H. destruct (reachable_at_rest env s H) as (_ & _ & _ & Hdialog).
  exact Hdialog.
Qed.

Lemma reachable_dialog_matches_target_witness :
  let env := Demo.env_with Demo.storage Demo.refusing_net in
  let s := state (session env [RequestDelete "a.md"; ConfirmDelete; RequestDelete "b.md"]
                    initial_world) in
  fileToDelete s = Some "b.md" /\ dialog_open s = true.
Proof.
  intros env s. split; [reflexivity|].
  apply (reachable_dialog_matches_target env s).
  - exists [RequestDelete "a.md"; ConfirmDelete; RequestDelete "b.md"]. reflexivity.
  - discriminate.
Defined.

(** ** How the local actions compose *)

Lemma removeFile_out_of_range_witness :
  removeFile 5 (Demo.world_of (with_error (Some "old") (Demo.staged [Demo.notes; Demo.draft])))
  = (Normal tt,
     Demo.world_of (with_error (Some "old") (Demo.staged [Demo.notes; Demo.draft]))).
Proof.
  apply (removeFile_out_of_range 5
           (Demo.world_of (with_error (Some "old") (Demo.staged [Demo.notes; Demo.draft])))).
  simpl. lia.
Defined.

(** X16: asking for a delete and cancelling it leaves no mark: from a state
    with the dialog closed and nothing staged, [openDeleteConfirm] followed
    by [closeDeleteConfirm] gives back the very same world, and sends
    nothing. *)
Theorem cancel_restores_world (env : Env) (fileName : string) (w : World) :
  deleteConfirmOpen (state w) = false ->
  fileToDelete (state w) = None ->
  session env [RequestDelete fileName; CancelDelete] w = w.
Proof.
  intros Hopen Htarget.
  destruct w as [[fs ups up lo er su sm dco ftd] tr c]. simpl in *.
  subst dco ftd. reflexivity.
Qed.

Lemma cancel_restores_world_witness :
  session (Demo.env_with Demo.storage Demo.delete_net)
          [RequestDelete "doc.md"; CancelDelete]
          (Demo.world_of (Demo.staged [Demo.notes]))
  = Demo.world_of (Demo.staged [Demo.notes]).
Proof.
  apply (cancel_restores_world (Demo.env_with Demo.storage Demo.delete_net) "doc.md"
           (Demo.world_of (Demo.staged [Demo.notes]))); reflexivity.
Defined.

(** X17: staging one Markdown file and removing the entry at the position
    it was given restores the staged list: selection appends at the end,
    and [removeFile] at the old length takes exactly that entry away. *)
Theorem select_then_remove_restores (env : Env) (file : File) (w : World) :
  uploadedFiles (state w) = [] ->
  is_md file = true ->
  files (state (session env [SelectFiles [file];
                             RemoveFile (List.length (files (state w)))] w))
  = files (state w).
Proof.
  intros Hnone Hmd. unfold session. cbn [fold_left]. unfold dispatch.
  destruct (handleFileSelect_state (state w) [file] w) as (err & Hrun).
  rewrite Hrun. rewrite Hnone. simpl. rewrite Hmd.
  unfold removeFile, setFiles, modify, filter_indexed. simpl.
  pose proof (filter_from_drop (List.length (files (state w)))
                (files (state w) ++ [file]) 0) as Hdrop.
  cbn [Nat.add] in Hdrop. rewrite Hdrop.
  - rewrite skipn_all2 by (rewrite length_app; simpl; lia).
    rewrite firstn_app, Nat.sub_diag, firstn_all. cbn [firstn].
    now rewrite !app_nil_r.
  - rewrite length_app. simpl. lia.
Qed.

Lemma select_then_remove_restores_witness :
  files (state (session (Demo.env_with Demo.storage Demo.friendly_net)
                  [SelectFiles [Demo.draft]; RemoveFile 1]
                  (Demo.world_of (Demo.staged [Demo.notes]))))
  = [Demo.notes].
Proof.
  apply (select_then_remove_restores (Demo.env_with Demo.storage Demo.friendly_net)
           Demo.draft (Demo.world_of (Demo.staged [Demo.notes]))); reflexivity.
Defined.

(** X21: the six local actions (select, remove, request and cancel a
    delete, dismiss either notification) never reach outside the
    component: they complete without throwing, send no request, call no
    callback, and leave [uploadedFiles], [uploading] and [loading] as they
    were. *)
Theorem local_actions_are_silent (env : Env) (a : Action) (w : World) :
  is_local a = true ->
  let w' := exec (dispatch env a) w in
  completion (dispatch env a) w = Normal tt
  /\ trace w' = trace w
  /\ clock w' = clock w
  /\ uploadedFiles (state w') = uploadedFiles (state w)
  /\ uploading (state w') = uploading (state w)
  /\ loading (state w') = loading (state w).
Proof.
  intros Hlocal w'. subst w'. unfold exec, completion.
  destruct a as [| candidates | index | | fileName | | | |];
    try discriminate Hlocal; unfold dispatch.
  - destruct (handleFileSelect_state (state w) candidates w) as (err & Hrun).
    rewrite Hrun. repeat split.
  - repeat split.
  - repeat split.
  - repeat split.
  - repeat split.
  - repeat split.
Qed.

Lemma local_actions_are_silent_witness :
  let env := Demo.env_with Demo.storage Demo.friendly_net in
  trace (exec (dispatch env (SelectFiles [Demo.notes; Demo.photo])) initial_world) = []
  /\ clock (exec (dispatch env (SelectFiles [Demo.notes; Demo.photo])) initial_world) = 0.
Proof.
  intros env.
  destruct (local_actions_are_silent env (SelectFiles [Demo.notes; Demo.photo])
              initial_world eq_refl)
    as (_ & Htrace & Hclock & _).
  split; [exact Htrace | exact Hclock].
Defined.

(** X22: the one-file-per-project rule end to end: once a refresh has
    listed at least one file, a selection made on the next render accepts
    nothing, whatever the candidates, and shows the single-file-limit
    message. *)
Theorem listed_file_blocks_selection
        (env : Env) (w : World) (b : Body) (first : JsVal) (others : list JsVal)
        (candidates : list File) :
  net env (clock w) = FetchResolved (mkResponse true (JsonResolved (Some b))) ->
  body_files b = Some (first :: others) ->
  let w' := session env [Mount; SelectFiles candidates] w in
  files (state w') = files (state w)
  /\ error (state w') = Some single_file_limit
  /\ uploadedFiles (state w') = first :: others
  /\ requests (trace w') = requests (trace w) ++ [list_request env].
Proof.
  intros Hnet Hfiles w'. subst w'. unfold session. cbn [fold_left]. unfold dispatch.
  destruct (fetchUploadedFiles_outcome env w) as (listed & err & extra & Hrun & Hcases).
  rewrite Hrun.
  destruct Hcases as [(b' & Hb' & -> & -> & ->) | (Hfail & _)].
  2:{ rewrite Hnet in Hfail. discriminate Hfail. }
  rewrite Hnet in Hb'. inversion Hb'; subst b'. rewrite Hfiles.
  unfold handleFileSelect. simpl.
  rewrite requests_app. repeat split.
Qed.

Lemma listed_file_blocks_selection_witness :
  let env := Demo.env_with Demo.storage (fun _ => Demo.listing [Demo.stored_notes]) in
  let w' := session env [Mount; SelectFiles [Demo.draft]] initial_world in
  files (state w') = [] /\ error (state w') = Some single_file_limit.
Proof.
  intros env w'.
  destruct (listed_file_blocks_selection env initial_world _ Demo.stored_notes []
              [Demo.draft] eq_refl eq_refl)
    as (Hfiles & Herr & _).
  split; [exact Hfiles | exact Herr].
Defined.

(** ** The URL of a delete *)


(** X18: two different file names never give the same DELETE URL, so a
    confirmed delete cannot address another file than the one staged, even
    when one name looks like the encoding of the other. *)
Theorem delete_url_distinguishes_names (env : Env) (a b : string) :
  a <> b -> delete_url env a <> delete_url env b.
Proof.
  intros Hab Hurl. apply Hab. unfold delete_url in Hurl.
  apply append_inv_head in Hurl. apply append_inv_head in Hurl.
  apply append_inv_head in Hurl. now apply encodeURIComponent_inj.
Qed.

Lemma delete_url_distinguishes_names_witness :
  delete_url (Demo.env_with Demo.storage Demo.delete_net) "a b.md"
  <> delete_url (Demo.env_with Demo.storage Demo.delete_net) "a%20b.md".
Proof.
  apply (delete_url_distinguishes_names (Demo.env_with Demo.storage Demo.delete_net)
           "a b.md" "a%20b.md").
  discriminate.
Defined.

(** X19: in the DELETE URL the file name cannot break out of its query
    parameter: what follows [fileName=] is made of unreserved characters,
    percent signs and upper-case hexadecimal digits only, hence holds no
    ampersand, equals sign, hash, question mark, slash, plus or space,
    whatever the name. *)
Theorem delete_url_query_is_safe (env : Env) (target : string) :
  exists query,
    delete_url env target = (files_url env ++ "?fileName=" ++ query)%string
    /\ string_forall is_url_safe query = true
    /\ string_forall
         (fun c => negb (existsb (Ascii.eqb c)
                           ["&"; "="; "#"; "?"; "/"; "+"; " "]%char))
         query = true.
Proof.
  exists (encodeURIComponent target). split; [|split].
  - unfold delete_url, files_url.
    now rewrite !append_assoc.
  - apply encodeURIComponent_safe.
  - pose proof (encodeURIComponent_safe target) as Hsafe.
    induction (encodeURIComponent target) as [|c r IH]; simpl in *; [reflexivity|].
    apply andb_true_iff in Hsafe as [Hc Hr]. rewrite (IH Hr), andb_true_r.
    destruct (Ascii.eqb_spec c "&") as [->|_]; [discriminate Hc|].
    destruct (Ascii.eqb_spec c "=") as [->|_]; [discriminate Hc|].
    destruct (Ascii.eqb_spec c "#") as [->|_]; [discriminate Hc|].
    destruct (Ascii.eqb_spec c "?") as [->|_]; [discriminate Hc|].
    destruct (Ascii.eqb_spec c "/") as [->|_]; [discriminate Hc|].
    destruct (Ascii.eqb_spec c "+") as [->|_]; [discriminate Hc|].
    destruct (Ascii.eqb_spec c " ") as [->|_]; [discriminate Hc|].
    reflexivity.
Qed.

(** X20: a name made of unreserved characters only (letters, digits and
    [- _ . ! ~ * ' ( )]) is sent as it is: the DELETE URL ends with
    [?fileName=] followed by the name itself. *)
Theorem delete_url_of_plain_name (env : Env) (target : string) :
  string_forall is_unreserved target = true ->
  delete_url env target = (files_url env ++ "?fileName=" ++ target)%string.
Proof.
  intros H. unfold delete_url, files_url.
  rewrite (encodeURIComponent_plain target H).
  now rewrite !append_assoc.
Qed.

Lemma delete_url_of_plain_name_witness :
  delete_url (Demo.env_with Demo.storage Demo.delete_net) "my_notes-v2.md"
  = "/api/projects/p1/files?fileName=my_notes-v2.md".
Proof.
  rewrite (delete_url_of_plain_name (Demo.env_with Demo.storage Demo.delete_net)
             "my_notes-v2.md"); reflexivity.
Defined.

(** ** What a session sends *)

Lemma requests_after_refresh (env : Env) (target : string) :
  requests (after_refresh env target) = [].
Proof.
  unfold after_refresh.
  destruct (onFileDeleted env) as [cb|]; [destruct (cb target)|]; reflexivity.
Qed.

Lemma upload_requests_are_project_requests (env : Env) (fs : list File) :
  forallb is_md fs = true ->
  Forall (project_request env) (map (upload_request env) fs).
Proof.
  induction fs as [|file rest IH]; simpl; intros H; [constructor|].
  apply andb_true_iff in H as [Hfile Hrest].
  constructor; [|now apply IH].
  right. left. now exists file.
Qed.

Lemma forallb_firstn {A} (p : A -> bool) (k : nat) (l : list A) :
  forallb p l = true -> forallb p (firstn k l) = true.
Proof.
  revert k. induction l as [|x l IH]; intros [|k] H; simpl in *; try reflexivity.
  apply andb_true_iff in H as [Hx Hl]. rewrite Hx. simpl. now apply IH.
Qed.

(** What one action adds to the requests of the trace. *)
Lemma dispatch_requests (env : Env) (a : Action) (w : World) :
  forallb is_md (files (state w)) = true ->
  exists added,
    requests (trace (snd (dispatch env a w))) = requests (trace w) ++ added
    /\ Forall (project_request env) added.
Proof.
  intros Hmd.
  assert (Hlist : project_request env (list_request env)) by now left.
  destruct a as [| candidates | index | | fileName | | | |]; unfold dispatch.
  - (* Mount *)
    destruct (fetchUploadedFiles_outcome env w) as (listed & err & extra & Hrun & Hcases).
    rewrite Hrun. simpl. exists [list_request env]. split; [|now constructor].
    rewrite requests_app. simpl.
    destruct Hcases as [(b & _ & _ & _ & ->) | (_ & _ & e & _ & ->)]; reflexivity.
  - (* SelectFiles *)
    destruct (handleFileSelect_state (state w) candidates w) as (err & Hrun).
    rewrite Hrun. simpl. exists []. now rewrite app_nil_r.
  - exists []. simpl. now rewrite app_nil_r.
  - (* Upload *)
    unfold uploadFiles.
    destruct (List.length (files (state w)) =? 0);
      [exists []; simpl; now rewrite app_nil_r|].
    destruct (handleStartUpload_cases env (state w) w)
      as [(msg & _ & _ & Hrun)
         | [(j & msg & Hj & _ & _ & Hrun) | (Hid & Hall & info & Hinfo)]].
    + rewrite Hrun. simpl. exists []. now rewrite app_nil_r.
    + rewrite Hrun. simpl.
      exists (map (upload_request env) (firstn (S j) (files (state w)))). split.
      * now rewrite requests_app, requests_upload_events.
      * apply upload_requests_are_project_requests. now apply forallb_firstn.
    + destruct (handleStartUpload_all_accepted env (state w) w info Hid Hinfo Hall)
        as (listed & err & extra & Hcases & Hrun).
      rewrite Hrun. simpl.
      exists (map (upload_request env) (files (state w)) ++ [list_request env]). split.
      * rewrite requests_app. f_equal.
        rewrite requests_app, requests_upload_events. f_equal. simpl. f_equal.
        rewrite requests_app.
        destruct Hcases as [(b & _ & _ & _ & ->) | (_ & _ & e & _ & ->)];
          destruct (onUploadSuccess env); reflexivity.
      * apply Forall_app. split; [|now constructor].
        now apply upload_requests_are_project_requests.
  - exists []. simpl. now rewrite app_nil_r.
  - exists []. simpl. now rewrite app_nil_r.
  - (* ConfirmDelete *)
    assert (Hstaged : fileToDelete (state w) = None
                      \/ exists target, fileToDelete (state w) = Some target).
    { destruct (fileToDelete (state w)) as [target|]; [right; now exists target | now left]. }
    destruct Hstaged as [Htarget | (target & Htarget)].
    { rewrite handleDeleteFile_guard by (now rewrite Htarget).
      exists []. simpl. now rewrite app_nil_r. }
    destruct (String.eqb_spec target EmptyString) as [->|Hne].
    { rewrite handleDeleteFile_guard by (now rewrite Htarget).
      exists []. simpl. now rewrite app_nil_r. }
    assert (Hdelete : project_request env (delete_request env target)).
    { right. right. now exists target. }
    destruct (delete_accepted (net env (clock w))) eqn:Hacc.
    + destruct (handleDeleteFile_accepted_outcome env (state w) w target Htarget Hne Hacc)
        as (listed & err & extra & Hcases & Hrun).
      rewrite Hrun. simpl.
      exists [delete_request env target; list_request env]. split.
      * rewrite requests_app. simpl. rewrite requests_app, requests_after_refresh.
        destruct Hcases as [(b & _ & _ & _ & ->) | (_ & _ & e & _ & ->)]; reflexivity.
      * constructor; [exact Hdelete | constructor; [exact Hlist | constructor]].
    + destruct (handleDeleteFile_refused env (state w) w target Htarget Hne Hacc)
        as (e & Hrun).
      rewrite Hrun. simpl.
      exists [delete_request env target]. split.
      * now rewrite requests_app.
      * constructor; [exact Hdelete | constructor].
  - exists []. simpl. now rewrite app_nil_r.
  - exists []. simpl. now rewrite app_nil_r.
Qed.

Lemma session_requests (env : Env) (actions : list Action) :
  forall w,
  at_rest (state w) ->
  Forall (project_request env) (requests (trace w)) ->
  Forall (project_request env) (requests (trace (session env actions w))).
Proof.
  induction actions as [|a actions IH]; intros w Hrest Hreq; simpl; [exact Hreq|].
  apply IH.
  - now apply dispatch_keeps_at_rest.
  - destruct Hrest as (_ & _ & Hmd & _).
    destruct (dispatch_requests env a w Hmd) as (added & -> & Hadded).
    apply Forall_app. now split.
Qed.

(** X15: a session talks to the server in three ways only. Every request
    it ever sends is the GET of the project's file list, the POST of a
    staged file whose name ends in [.md] to the same URL, or the DELETE of
    a non-empty name on the [fileName] query of that URL; so nothing but
    Markdown files is ever uploaded, and no other endpoint is reached. *)
Theorem session_sends_project_requests_only
        (env : Env) (actions : list Action) (rq : Request) :
  In rq (requests (trace (session env actions initial_world))) ->
  (rq = mkRequest GET (files_url env) None)
  \/ (exists file stem,
         name file = (stem ++ ".md")%string
         /\ rq = mkRequest POST (files_url env) (Some file))
  \/ (exists target,
         target <> EmptyString
         /\ rq = mkRequest DELETE (delete_url env target) None).
Proof.
  intros Hin.
  assert (Hall : Forall (project_request env)
                        (requests (trace (session env actions initial_world)))).
  { apply session_requests; [|constructor].
    repeat split; try reflexivity; simpl; [discriminate | intros H; now contradiction H]. }
  rewrite Forall_forall in Hall.
  destruct (Hall rq Hin) as [-> | [(file & Hmd & ->) | (target & Hne & ->)]].
  - now left.
  - right. left. apply is_md_spec in Hmd as (stem & Hstem). now exists file, stem.
  - right. right. now exists target.
Qed.

Lemma session_sends_project_requests_only_witness :
  let env := Demo.env_with Demo.storage Demo.friendly_net in
  let rq := upload_request env Demo.notes in
  exists file stem,
    name file = (stem ++ ".md")%string /\ rq = mkRequest POST (files_url env) (Some file).
Proof.
  intros env rq.
  destruct (session_sends_project_requests_only env
              [SelectFiles [Demo.photo; Demo.notes]; Upload] rq)
    as [Hget | [Hpost | (target & _ & Hdel)]].
  - vm_compute. now left.
  - discriminate Hget.
  - exact Hpost.
  - discriminate Hdel.
Defined.

(** ** The guard of [uploadFiles] *)

(** X24: [uploadFiles] stops an empty batch before it starts: with nothing
    staged it sends nothing and changes nothing. The guard matters, since
    [handleStartUpload] itself, run on an empty batch with a model
    selected, posts nothing and yet announces a success for zero files and
    calls [onUploadSuccess] with an empty list of names. *)
Theorem uploadFiles_guards_empty_batch
        (env : Env) (snap : State) (w : World) (info : JsVal) :
  files snap = [] ->
  truthy_str (localStorage env "selectedModelId") = true ->
  stored_model_info env = Some info ->
  uploadFiles env snap w = (Normal tt, w)
  /\ let w' := exec (handleStartUpload env snap) w in
     uploads_in (trace w') = uploads_in (trace w)
     /\ success (state w') = true
     /\ successMessage (state w') = uploaded_count 0
     /\ upload_success_calls (trace w')
        = upload_success_calls (trace w)
          ++ match onUploadSuccess env with
             | Some _ => [([], info)]
             | None => []
             end.
Proof.
  intros Hempty Hid Hinfo. split.
  - unfold uploadFiles. now rewrite Hempty.
  - unfold exec.
    destruct (handleStartUpload_all_accepted env snap w info Hid Hinfo)
      as (listed & err & extra & Hcases & Hrun).
    { intros i Hi. rewrite Hempty in Hi. simpl in Hi. lia. }
    rewrite Hrun, Hempty. simpl. unfold list_request.
    rewrite uploads_in_app, upload_success_calls_app. simpl.
    rewrite uploads_in_app, upload_success_calls_app.
    destruct Hcases as [(b & _ & _ & _ & ->) | (_ & _ & e & _ & ->)];
      destruct (onUploadSuccess env) as [cb|]; simpl;
      rewrite ?app_nil_r; repeat split.
Qed.

Lemma uploadFiles_guards_empty_batch_witness :
  let env := Demo.env_with Demo.storage (fun _ => Demo.listing []) in
  uploadFiles env initial_state initial_world = (Normal tt, initial_world)
  /\ upload_success_calls (trace (exec (handleStartUpload env initial_state) initial_world))
     = [([], JArr [JNum "1"; JNum "2"])].
Proof.
  intros env.
  destruct (uploadFiles_guards_empty_batch env initial_state initial_world
              (JArr [JNum "1"; JNum "2"]) eq_refl eq_refl eq_refl)
    as (Hguard & _ & _ & _ & Hcalls).
  split; [exact Hguard | exact Hcalls].
Defined.
